(** * Prusa Core One ESP32 monitor, V3.0 (WebSocket edition)

    A shallow embedding of the ingestion path of the firmware: the line
    assembler [handle_rx], the serial line parser
    [parse_and_broadcast_line], the JSON message builders and the
    per-client queues behind [ws_broadcast_message], with the sender
    task, the WebSocket endpoint [ws_handler], the log sink
    [ws_log_vprintf] and the cache of the remote page around them,
    followed by the properties that are established on it.

    Conventions of the embedding.
    - A C [char] and a [uint8_t] are both an [ascii] (eight bits); a
      NUL-terminated C string is a [string]; the fixed array
      [serial_line_buffer] is a [list ascii] written by index.
    - A C [int] is a [Z] kept in the 32-bit range ([wrap_int] where the
      code computes, [saturate_int] where [sscanf] converts).
    - A C [float] is the exact rational denoted by the decimal text that
      [sscanf] reads; rounding to binary32 and the [%.1f]/[%.2f]
      rendering of [snprintf] are outside the model, so a message carries
      the values handed to [snprintf] rather than the rendered text.
    - The global variables of the firmware are the fields of [world];
      every function is a computation in the monad [M], which threads the
      world and collects the observable effects (mutex operations,
      published messages, log output) in program order.
    - One task is followed at a time: [xSemaphoreTake] returns with the
      mutex, and [xQueueSend] and [xQueueReceive] are called with no ticks
      to wait, as in the source. [ESP_LOGx] is an effect of the trace;
      the sink [ws_log_vprintf] that [app_main] installs for the log
      output is a computation of its own, and the locks that a task
      holds when it logs are read off its trace ([locks_at_logs]). *)

From Stdlib Require Import ZArith QArith String Ascii List Lia.
From stdpp Require Import base list strings.

#[local] Open Scope string_scope.
#[local] Open Scope Z_scope.
#[local] Open Scope list_scope.

(** ** C strings *)

Module CString.

Definition NUL : ascii := "000"%char.
Definition LF : ascii := "010"%char.
Definition CR : ascii := "013"%char.

Definition code (c : ascii) : Z := Z.of_nat (nat_of_ascii c).

(** [isspace] of the C locale: space, [\t], [\n], [\v], [\f], [\r]. *)
Definition isspace (c : ascii) : bool :=
  (code c =? 32) || ((9 <=? code c) && (code c <=? 13)).

Definition isdigit (c : ascii) : bool :=
  (48 <=? code c) && (code c <=? 57).

(** The string a [char *] points to inside an array: the characters in
    front of the first NUL. *)
Fixpoint read_c_string (mem : list ascii) : string :=
  match mem with
  | [] => ""
  | c :: mem' => if Ascii.eqb c NUL then "" else String c (read_c_string mem')
  end.

(** [strstr(haystack, needle)]: [None] is the null pointer, [Some s] a
    pointer into [haystack] at the first occurrence, read as the string
    [s] that starts there. *)
Fixpoint strstr (haystack needle : string) : option string :=
  if String.prefix needle haystack then Some haystack
  else match haystack with
       | "" => None
       | String _ rest => strstr rest needle
       end.

(** [strncpy(dst, src, n); dst[n] = 0]: the first [n] characters. *)
Fixpoint strncpy (src : string) (n : nat) : string :=
  match n, src with
  | S n', String c rest => String c (strncpy rest n')
  | _, _ => ""
  end.

(** [p = strstr(s, needle); if (p) *p = 0]: [s] cut in front of the
    first occurrence of [needle]. *)
Fixpoint terminate_at (s needle : string) : string :=
  if String.prefix needle s then ""
  else match s with
       | "" => ""
       | String c rest => String c (terminate_at rest needle)
       end.

End CString.

(** ** The conversions of [sscanf] used by the parser *)

Module Scanf.
Import CString.

(** 32-bit [int]: [INT_MIN .. INT_MAX]. *)
Definition INT_MAX : Z := 2147483647.
Definition INT_MIN : Z := -2147483648.

(** Two's complement wrap-around of a computed [int]. *)
Definition wrap_int (z : Z) : Z := (z + 2147483648) mod 4294967296 - 2147483648.

(** [strtol] on a 32-bit [long] clamps an out-of-range numeral. *)
Definition saturate_int (z : Z) : Z := Z.max INT_MIN (Z.min INT_MAX z).

(** A parsed [float]: the rational value of the decimal text. *)
Definition float : Type := Q.

Inductive value : Type :=
| VInt (n : Z)
| VFloat (x : float).

(** One directive of a format string. *)
Inductive directive : Type :=
| DSpace                            (* white space: skips any white space *)
| DChar (c : ascii)                 (* an ordinary character *)
| DPercent                          (* %% *)
| DInt                              (* %d *)
| DFloat                            (* %f *)
| DSkipExcept (set : list ascii)    (* %*[^set] *)
| DUnsupported.                     (* anything the parser does not use *)

Inductive fmt_mode : Type :=
| FmtPlain
| FmtPercent
| FmtStar
| FmtBracket
| FmtSet (set : list ascii).

Fixpoint parse_format_from (mode : fmt_mode) (fmt : string) : list directive :=
  match fmt with
  | "" => match mode with FmtPlain => [] | _ => [DUnsupported] end
  | String c rest =>
      match mode with
      | FmtPlain =>
          if Ascii.eqb c "%" then parse_format_from FmtPercent rest
          else if isspace c then DSpace :: parse_format_from FmtPlain rest
          else DChar c :: parse_format_from FmtPlain rest
      | FmtPercent =>
          if Ascii.eqb c "d" then DInt :: parse_format_from FmtPlain rest
          else if Ascii.eqb c "f" then DFloat :: parse_format_from FmtPlain rest
          else if Ascii.eqb c "%" then DPercent :: parse_format_from FmtPlain rest
          else if Ascii.eqb c "*" then parse_format_from FmtStar rest
          else [DUnsupported]
      | FmtStar =>
          if Ascii.eqb c "[" then parse_format_from FmtBracket rest
          else [DUnsupported]
      | FmtBracket =>
          if Ascii.eqb c "^" then parse_format_from (FmtSet []) rest
          else [DUnsupported]
      | FmtSet set =>
          match set with
          | _ :: _ =>
              if Ascii.eqb c "]"
              then DSkipExcept (rev set) :: parse_format_from FmtPlain rest
              else parse_format_from (FmtSet (c :: set)) rest
          | [] => parse_format_from (FmtSet [c]) rest
          end
      end
  end.

Definition parse_format (fmt : string) : list directive :=
  parse_format_from FmtPlain fmt.

Fixpoint skip_space (s : string) : string :=
  match s with
  | String c rest => if isspace c then skip_space rest else s
  | "" => ""
  end.

(** The longest run of decimal digits in front of [s], and what follows. *)
Fixpoint span_digits (s : string) : string * string :=
  match s with
  | String c rest =>
      if isdigit c
      then let '(ds, tl) := span_digits rest in (String c ds, tl)
      else ("", s)
  | "" => ("", "")
  end.

Fixpoint digits_value (acc : Z) (ds : string) : Z :=
  match ds with
  | String c rest => digits_value (10 * acc + (code c - 48)) rest
  | "" => acc
  end.

(** An optional sign: [true] for [-]. *)
Definition scan_sign (s : string) : bool * string :=
  match s with
  | String c rest =>
      if Ascii.eqb c "-" then (true, rest)
      else if Ascii.eqb c "+" then (false, rest)
      else (false, s)
  | "" => (false, "")
  end.

Definition signed (neg : bool) (z : Z) : Z := if neg then - z else z.

(** [%d]: white space, an optional sign, at least one digit. *)
Definition scan_int (s : string) : option (Z * string) :=
  let '(neg, s1) := scan_sign (skip_space s) in
  let '(ds, tl) := span_digits s1 in
  match ds with
  | "" => None
  | _ => Some (saturate_int (signed neg (digits_value 0 ds)), tl)
  end.

(** The exponent part [e[+-]ddd]; when no digit follows the [e] the
    mantissa stands alone and the [e] is left in the input. *)
Definition scan_exponent (s : string) : Z * string :=
  match s with
  | String c rest =>
      if Ascii.eqb c "e" || Ascii.eqb c "E" then
        let '(neg, s1) := scan_sign rest in
        let '(ds, tl) := span_digits s1 in
        match ds with
        | "" => (0, s)
        | _ => (signed neg (digits_value 0 ds), tl)
        end
      else (0, s)
  | "" => (0, "")
  end.

(** The rational [m * 10^e], in lowest terms. *)
Definition decimal (m e : Z) : float :=
  if 0 <=? e then inject_Z (m * 10 ^ e)
  else Qred (m # Z.to_pos (10 ^ (- e))).

(** [%f]: white space, an optional sign, digits with an optional point
    (at least one digit in all), an optional exponent. The [inf], [nan]
    and hexadecimal spellings are not part of the model. *)
Definition scan_float (s : string) : option (float * string) :=
  let '(neg, s1) := scan_sign (skip_space s) in
  let '(ip, s2) := span_digits s1 in
  let '(fp, s3) :=
    match s2 with
    | String c rest => if Ascii.eqb c "." then span_digits rest else ("", s2)
    | "" => ("", "")
    end in
  match (ip ++ fp)%string with
  | "" => None
  | ds =>
      let '(e, tl) := scan_exponent s3 in
      Some (decimal (signed neg (digits_value 0 ds))
                    (e - Z.of_nat (String.length fp)), tl)
  end.

Definition in_set (c : ascii) (set : list ascii) : bool :=
  existsb (Ascii.eqb c) set.

(** [%*[^set]]: the longest run of characters outside [set]. *)
Fixpoint skip_except (set : list ascii) (s : string) : string :=
  match s with
  | String c rest => if in_set c set then s else skip_except set rest
  | "" => ""
  end.

(** The directives are run from left to right; the first one that does
    not match ends the scan. The result lists the values assigned, in
    order: its length is what [sscanf] returns whenever that is positive
    (C returns 0 or [EOF] when nothing was assigned; the parser only
    compares the result with positive counts). *)
Fixpoint run (ds : list directive) (input : string) : list value :=
  match ds with
  | [] => []
  | DSpace :: ds' => run ds' (skip_space input)
  | DChar c :: ds' =>
      match input with
      | String c' rest => if Ascii.eqb c c' then run ds' rest else []
      | "" => []
      end
  | DPercent :: ds' =>
      match skip_space input with
      | String c' rest => if Ascii.eqb "%" c' then run ds' rest else []
      | "" => []
      end
  | DInt :: ds' =>
      match scan_int input with
      | Some (n, rest) => VInt n :: run ds' rest
      | None => []
      end
  | DFloat :: ds' =>
      match scan_float input with
      | Some (x, rest) => VFloat x :: run ds' rest
      | None => []
      end
  | DSkipExcept set :: ds' =>
      match input with
      | String c _ =>
          if in_set c set then [] else run ds' (skip_except set input)
      | "" => []
      end
  | DUnsupported :: _ => []
  end.

Definition sscanf (str format : string) : list value :=
  run (parse_format format) str.

(** [sscanf(...) == 1] with one [%d]. *)
Definition int1 (vs : list value) : option Z :=
  match vs with
  | [VInt a] => Some a
  | _ => None
  end.

(** [sscanf(...) == 2] with two [%d]. *)
Definition int2 (vs : list value) : option (Z * Z) :=
  match vs with
  | [VInt a; VInt b] => Some (a, b)
  | _ => None
  end.

(** [sscanf(...) == 1] with one [%f]. *)
Definition float1 (vs : list value) : option float :=
  match vs with
  | [VFloat a] => Some a
  | _ => None
  end.

(** [sscanf(...) == 2] with two [%f]. *)
Definition float2 (vs : list value) : option (float * float) :=
  match vs with
  | [VFloat a; VFloat b] => Some (a, b)
  | _ => None
  end.

(** [sscanf(...) == 4] with four [%f]. *)
Definition float4 (vs : list value) : option (float * float * float * float) :=
  match vs with
  | [VFloat a; VFloat b; VFloat c; VFloat d] => Some (a, b, c, d)
  | _ => None
  end.

End Scanf.

(** ** Data model *)

(** *** Configuration *)

Definition WS_MAX_CLIENTS : nat := 4.
Definition WS_MESSAGE_QUEUE_SIZE : nat := 50.
Definition WS_MAX_PAYLOAD_SIZE : nat := 512.
Definition SERIAL_LINE_BUFFER_SIZE : nat := 512.

(** *** Message types and structures *)

Inductive message_type_t : Type :=
| MSG_TYPE_TEMPERATURE
| MSG_TYPE_PROGRESS
| MSG_TYPE_POSITION
| MSG_TYPE_LOG
| MSG_TYPE_STATUS
| MSG_TYPE_POWER
| MSG_TYPE_ERROR.

Record temp_state_t : Type := {
  nozzle_current : Scanf.float;
  nozzle_target : Scanf.float;
  bed_current : Scanf.float;
  bed_target : Scanf.float;
  heatbreak_current : Scanf.float;
  heatbreak_target : Scanf.float;
  chamber_current : Scanf.float
}.

Record progress_state_t : Type := {
  percent : Z;
  time_left_mins : Z;
  change_mins : Z
}.

(** The fields [x], [y], [z], [e] of the C struct. *)
Record position_state_t : Type := {
  pos_x : Scanf.float;
  pos_y : Scanf.float;
  pos_z : Scanf.float;
  pos_e : Scanf.float
}.

Record power_state_t : Type := {
  nozzle_pwm : Z;
  bed_pwm : Z;
  heatbreak_pwm : Z
}.

(** What [snprintf] writes into [json_payload]: the JSON object of the
    message, kept as the values that are formatted into it. *)
Inductive json_payload_t : Type :=
| JsonTemperature (temps : temp_state_t)
| JsonProgress (progress : progress_state_t)
| JsonPosition (pos : position_state_t)
| JsonPower (power : power_state_t)
| JsonLog (escaped : string)
| JsonStatus (connected : bool).

Record ws_message_t : Type := {
  type : message_type_t;
  json_payload : json_payload_t
}.

Record ws_client_t : Type := {
  fd : Z;                              (* WebSocket file descriptor *)
  active : bool;                       (* is this slot active? *)
  message_queue : list ws_message_t    (* per-client queue, head first *)
}.

(** *** Global state *)

Inductive mutex : Type :=
| ws_clients_mutex
| printer_state_mutex.

Record world : Type := {
  ws_clients : list ws_client_t;
  current_temps : temp_state_t;
  current_progress : progress_state_t;
  current_position : position_state_t;
  current_power : power_state_t;
  printer_connected : bool;
  serial_line_buffer : list ascii;
  serial_line_pos : nat
}.

(** *** Observable effects *)

Inductive log_level : Type := LOG_I | LOG_W | LOG_E.

Inductive log_text : Type :=
| LogQueueFull (client : nat)      (* "Client %d message queue full, dropping message" *)
| LogLineOverflow                  (* "Line buffer overflow, forcing parse" *)
| LogClientConnected (client : nat) (fd : Z)
| LogClientDisconnected (client : nat) (fd : Z)
| LogNoSlots (fd : Z)
| LogSendFailed (client : nat).    (* "Failed to send to client %d: %s" *)

Inductive effect : Type :=
| Take (m : mutex)                 (* xSemaphoreTake(m, portMAX_DELAY) returned *)
| Give (m : mutex)                 (* xSemaphoreGive(m) *)
| Publish (msg : ws_message_t)     (* ws_broadcast_message entered with msg *)
| EspLog (lvl : log_level) (text : log_text)
| WsSend (fd : Z) (msg : ws_message_t)   (* httpd_ws_send_frame_async *)
| RawLine (content : list ascii).  (* the assembler hands a line to the parser *)

(** ** The monad of the firmware *)

Definition M (A : Type) : Type := world -> A * world * list effect.

Definition ret {A} (a : A) : M A := fun w => (a, w, []).

Definition bind {A B} (m : M A) (k : A -> M B) : M B :=
  fun w =>
    let '(a, w1, e1) := m w in
    let '(b, w2, e2) := k a w1 in
    (b, w2, e1 ++ e2).

Declare Scope firmware_scope.
Delimit Scope firmware_scope with fw.
Notation "x <- m ;; k" := (bind m (fun x => k))
  (at level 100, m at next level, k at level 200, right associativity,
   only parsing) : firmware_scope.
Notation "m ;; k" := (bind m (fun _ => k))
  (at level 100, k at level 200, right associativity) : firmware_scope.
#[local] Open Scope firmware_scope.

Definition result_of {A} (r : A * world * list effect) : A := r.1.1.
Definition state_of {A} (r : A * world * list effect) : world := r.1.2.
Definition effects_of {A} (r : A * world * list effect) : list effect := r.2.

Definition gets {A} (f : world -> A) : M A := fun w => (f w, w, []).
Definition modify (f : world -> world) : M unit := fun w => (tt, f w, []).
Definition emit (e : effect) : M unit := fun w => (tt, w, [e]).

Definition when (b : bool) (m : M unit) : M unit := if b then m else ret tt.

(** [for (int i = start; i < start + count; i++) body(i)] *)
Fixpoint for_loop (start count : nat) (body : nat -> M unit) : M unit :=
  match count with
  | O => ret tt
  | S count' => body start ;; for_loop (S start) count' body
  end.

(** [for] over the bytes of an input chunk. *)
Fixpoint for_each {A} (l : list A) (body : A -> M unit) : M unit :=
  match l with
  | [] => ret tt
  | a :: l' => body a ;; for_each l' body
  end.

Definition xSemaphoreTake (m : mutex) : M unit := emit (Take m).
Definition xSemaphoreGive (m : mutex) : M unit := emit (Give m).
Definition ESP_LOGW (text : log_text) : M unit := emit (EspLog LOG_W text).
Definition ESP_LOGI (text : log_text) : M unit := emit (EspLog LOG_I text).

(** *** Assignments to the globals *)

Definition set_ws_clients (v : list ws_client_t) (w : world) : world :=
  {| ws_clients := v;
     current_temps := current_temps w;
     current_progress := current_progress w;
     current_position := current_position w;
     current_power := current_power w;
     printer_connected := printer_connected w;
     serial_line_buffer := serial_line_buffer w;
     serial_line_pos := serial_line_pos w |}.

Definition set_current_temps (v : temp_state_t) (w : world) : world :=
  {| ws_clients := ws_clients w;
     current_temps := v;
     current_progress := current_progress w;
     current_position := current_position w;
     current_power := current_power w;
     printer_connected := printer_connected w;
     serial_line_buffer := serial_line_buffer w;
     serial_line_pos := serial_line_pos w |}.

Definition set_current_progress (v : progress_state_t) (w : world) : world :=
  {| ws_clients := ws_clients w;
     current_temps := current_temps w;
     current_progress := v;
     current_position := current_position w;
     current_power := current_power w;
     printer_connected := printer_connected w;
     serial_line_buffer := serial_line_buffer w;
     serial_line_pos := serial_line_pos w |}.

Definition set_current_position (v : position_state_t) (w : world) : world :=
  {| ws_clients := ws_clients w;
     current_temps := current_temps w;
     current_progress := current_progress w;
     current_position := v;
     current_power := current_power w;
     printer_connected := printer_connected w;
     serial_line_buffer := serial_line_buffer w;
     serial_line_pos := serial_line_pos w |}.

Definition set_current_power (v : power_state_t) (w : world) : world :=
  {| ws_clients := ws_clients w;
     current_temps := current_temps w;
     current_progress := current_progress w;
     current_position := current_position w;
     current_power := v;
     printer_connected := printer_connected w;
     serial_line_buffer := serial_line_buffer w;
     serial_line_pos := serial_line_pos w |}.

Definition set_serial_line_buffer (v : list ascii) (w : world) : world :=
  {| ws_clients := ws_clients w;
     current_temps := current_temps w;
     current_progress := current_progress w;
     current_position := current_position w;
     current_power := current_power w;
     printer_connected := printer_connected w;
     serial_line_buffer := v;
     serial_line_pos := serial_line_pos w |}.

Definition set_serial_line_pos (v : nat) (w : world) : world :=
  {| ws_clients := ws_clients w;
     current_temps := current_temps w;
     current_progress := current_progress w;
     current_position := current_position w;
     current_power := current_power w;
     printer_connected := printer_connected w;
     serial_line_buffer := serial_line_buffer w;
     serial_line_pos := v |}.

(** ** WebSocket client management *)

Import CString Scanf.

(** [ws_clients_init]: every slot inactive, with an empty queue of
    [WS_MESSAGE_QUEUE_SIZE] places. *)
Definition empty_slot : ws_client_t :=
  {| fd := -1; active := false; message_queue := [] |}.

Definition ws_clients_init : list ws_client_t :=
  replicate WS_MAX_CLIENTS empty_slot.

(** [xQueueSend(queue, item, 0)] on a queue created with
    [WS_MESSAGE_QUEUE_SIZE] places: with no ticks to wait the call returns
    at once, [pdTRUE] with the item appended at the back, or
    [errQUEUE_FULL] ([None]) with the queue as it was. *)
Definition xQueueSend (queue : list ws_message_t) (item : ws_message_t)
  : option (list ws_message_t) :=
  if Nat.ltb (length queue) WS_MESSAGE_QUEUE_SIZE
  then Some (queue ++ [item])
  else None.

(** [xQueueReset(queue)] *)
Definition xQueueReset (queue : list ws_message_t) : list ws_message_t := [].

(** [ws_clients[i] = c] *)
Definition store_client (i : nat) (c : ws_client_t) : M unit :=
  modify (fun w => set_ws_clients (<[i := c]> (ws_clients w)) w).

Fixpoint ws_client_add_from (fd0 : Z) (i count : nat) : M Z :=
  match count with
  | O =>
      xSemaphoreGive ws_clients_mutex ;;
      ESP_LOGW (LogNoSlots fd0) ;;
      ret (-1)
  | S count' =>
      slot <- gets (fun w => ws_clients w !! i) ;;
      match slot with
      | Some c =>
          if negb (active c) then
            (* clear any stale messages *)
            store_client i {| fd := fd0; active := true;
                              message_queue := xQueueReset (message_queue c) |} ;;
            xSemaphoreGive ws_clients_mutex ;;
            ESP_LOGI (LogClientConnected i fd0) ;;
            ret (Z.of_nat i)
          else ws_client_add_from fd0 (S i) count'
      | None => ws_client_add_from fd0 (S i) count'
      end
  end.

Definition ws_client_add (fd0 : Z) : M Z :=
  xSemaphoreTake ws_clients_mutex ;;
  ws_client_add_from fd0 0 WS_MAX_CLIENTS.

Fixpoint ws_client_remove_from (fd0 : Z) (i count : nat) : M unit :=
  match count with
  | O => ret tt
  | S count' =>
      slot <- gets (fun w => ws_clients w !! i) ;;
      match slot with
      | Some c =>
          if active c && (fd c =? fd0) then
            store_client i {| fd := -1; active := false;
                              message_queue := xQueueReset (message_queue c) |} ;;
            ESP_LOGI (LogClientDisconnected i fd0)
          else ws_client_remove_from fd0 (S i) count'
      | None => ws_client_remove_from fd0 (S i) count'
      end
  end.

Definition ws_client_remove (fd0 : Z) : M unit :=
  xSemaphoreTake ws_clients_mutex ;;
  ws_client_remove_from fd0 0 WS_MAX_CLIENTS ;;
  xSemaphoreGive ws_clients_mutex.

(** The body of the loop of [ws_broadcast_message] for slot [i]. *)
Definition broadcast_to (msg : ws_message_t) (i : nat) : M unit :=
  slot <- gets (fun w => ws_clients w !! i) ;;
  match slot with
  | Some c =>
      if active c then
        match xQueueSend (message_queue c) msg with
        | Some queue' =>
            store_client i {| fd := fd c; active := active c;
                              message_queue := queue' |}
        | None => ESP_LOGW (LogQueueFull i)
        end
      else ret tt
  | None => ret tt
  end.

Definition ws_broadcast_message (msg : ws_message_t) : M unit :=
  emit (Publish msg) ;;
  xSemaphoreTake ws_clients_mutex ;;
  for_loop 0 WS_MAX_CLIENTS (broadcast_to msg) ;;
  xSemaphoreGive ws_clients_mutex.

(** ** JSON message builders *)

Definition build_temperature_message (temps : temp_state_t) : ws_message_t :=
  {| type := MSG_TYPE_TEMPERATURE; json_payload := JsonTemperature temps |}.

Definition build_progress_message (progress : progress_state_t) : ws_message_t :=
  {| type := MSG_TYPE_PROGRESS; json_payload := JsonProgress progress |}.

Definition build_position_message (pos : position_state_t) : ws_message_t :=
  {| type := MSG_TYPE_POSITION; json_payload := JsonPosition pos |}.

Definition build_power_message (power : power_state_t) : ws_message_t :=
  {| type := MSG_TYPE_POWER; json_payload := JsonPower power |}.

Definition build_status_message (connected : bool) : ws_message_t :=
  {| type := MSG_TYPE_STATUS; json_payload := JsonStatus connected |}.

Definition QUOTE : ascii := "034"%char.
Definition BACKSLASH : ascii := "092"%char.

Definition needs_escape (c : ascii) : bool :=
  Ascii.eqb c QUOTE || Ascii.eqb c BACKSLASH.

(** The loop of [build_log_message] that fills [escaped], a buffer of
    [WS_MAX_PAYLOAD_SIZE / 2] characters, from index [j] on: it runs while
    [log_line[i]] is not NUL and [j < sizeof(escaped) - 2]. *)
Fixpoint escape_from (j : nat) (log_line : string) : string :=
  match log_line with
  | "" => ""
  | String c rest =>
      if Nat.ltb j (WS_MAX_PAYLOAD_SIZE / 2 - 2) then
        if needs_escape c
        then String BACKSLASH (String c (escape_from (j + 2) rest))
        else String c (escape_from (j + 1) rest)
      else ""
  end.

(** The framing [{"type":"log","message":"..."}] adds 27 characters to at
    most 255, so [snprintf] never cuts the payload. *)
Definition build_log_message (log_line : string) : ws_message_t :=
  {| type := MSG_TYPE_LOG; json_payload := JsonLog (escape_from 0 log_line) |}.

(** ** Serial line parser *)

(** A pointer compared with NULL. *)
Definition found (p : option string) : bool :=
  match p with Some _ => true | None => false end.

(** [p = strstr(line, marker); p && sscanf(p, format, ...)] *)
Definition scan_at (line marker format : string) : list value :=
  match strstr line marker with
  | Some p => sscanf p format
  | None => []
  end.

Definition set_nozzle_bed (nc nt bc bt : float) (t : temp_state_t) : temp_state_t :=
  {| nozzle_current := nc; nozzle_target := nt;
     bed_current := bc; bed_target := bt;
     heatbreak_current := heatbreak_current t;
     heatbreak_target := heatbreak_target t;
     chamber_current := chamber_current t |}.

Definition set_heatbreak (hc ht : float) (t : temp_state_t) : temp_state_t :=
  {| nozzle_current := nozzle_current t; nozzle_target := nozzle_target t;
     bed_current := bed_current t; bed_target := bed_target t;
     heatbreak_current := hc;
     heatbreak_target := ht;
     chamber_current := chamber_current t |}.

Definition set_chamber (c : float) (t : temp_state_t) : temp_state_t :=
  {| nozzle_current := nozzle_current t; nozzle_target := nozzle_target t;
     bed_current := bed_current t; bed_target := bed_target t;
     heatbreak_current := heatbreak_current t;
     heatbreak_target := heatbreak_target t;
     chamber_current := c |}.

Definition set_nozzle_pwm (v : Z) (p : power_state_t) : power_state_t :=
  {| nozzle_pwm := v; bed_pwm := bed_pwm p; heatbreak_pwm := heatbreak_pwm p |}.
Definition set_bed_pwm (v : Z) (p : power_state_t) : power_state_t :=
  {| nozzle_pwm := nozzle_pwm p; bed_pwm := v; heatbreak_pwm := heatbreak_pwm p |}.
Definition set_heatbreak_pwm (v : Z) (p : power_state_t) : power_state_t :=
  {| nozzle_pwm := nozzle_pwm p; bed_pwm := bed_pwm p; heatbreak_pwm := v |}.

Definition set_percent (v : Z) (p : progress_state_t) : progress_state_t :=
  {| percent := v; time_left_mins := time_left_mins p; change_mins := change_mins p |}.
Definition set_time_left_mins (v : Z) (p : progress_state_t) : progress_state_t :=
  {| percent := percent p; time_left_mins := v; change_mins := change_mins p |}.
Definition set_change_mins (v : Z) (p : progress_state_t) : progress_state_t :=
  {| percent := percent p; time_left_mins := time_left_mins p; change_mins := v |}.

Definition update_temps (f : temp_state_t -> temp_state_t) : M unit :=
  modify (fun w => set_current_temps (f (current_temps w)) w).
Definition update_power (f : power_state_t -> power_state_t) : M unit :=
  modify (fun w => set_current_power (f (current_power w)) w).
Definition update_progress (f : progress_state_t -> progress_state_t) : M unit :=
  modify (fun w => set_current_progress (f (current_progress w)) w).

(** [build_..._message(&msg, &current_...); ws_broadcast_message(&msg);] *)
Definition broadcast_temperature : M unit :=
  msg <- gets (fun w => build_temperature_message (current_temps w)) ;;
  ws_broadcast_message msg.
Definition broadcast_power : M unit :=
  msg <- gets (fun w => build_power_message (current_power w)) ;;
  ws_broadcast_message msg.
Definition broadcast_progress : M unit :=
  msg <- gets (fun w => build_progress_message (current_progress w)) ;;
  ws_broadcast_message msg.
Definition broadcast_position : M unit :=
  msg <- gets (fun w => build_position_message (current_position w)) ;;
  ws_broadcast_message msg.

(** The blocks of [parse_and_broadcast_line], in source order. *)

(** Nozzle and bed: both pairs must scan; the result is [state_changed]. *)
Definition parse_nozzle_bed (line : string) : M bool :=
  match float2 (scan_at line "T:" "T:%f/%f") with
  | Some (nozzle_cur, nozzle_tgt) =>
      match float2 (scan_at line "B:" "B:%f/%f") with
      | Some (bed_cur, bed_tgt) =>
          update_temps (set_nozzle_bed nozzle_cur nozzle_tgt bed_cur bed_tgt) ;;
          ret true
      | None => ret false
      end
  | None => ret false
  end.

(** Heatbreak temperature: X:45.0/45.0 *)
Definition parse_heatbreak (line : string) : M unit :=
  match float2 (scan_at line "X:" "X:%f/%f") with
  | Some (hb_cur, hb_tgt) => update_temps (set_heatbreak hb_cur hb_tgt)
  | None => ret tt
  end.

(** Chamber temperature: C@:22.5 *)
Definition parse_chamber (line : string) : M unit :=
  match float1 (scan_at line "C@:" "C@:%f") with
  | Some chamber => update_temps (set_chamber chamber)
  | None => ret tt
  end.

(** One power field: [sscanf] writes the field itself when it scans. *)
Definition parse_pwm (line marker format : string)
    (set : Z -> power_state_t -> power_state_t) : M bool :=
  match int1 (scan_at line marker format) with
  | Some v => update_power (set v) ;; ret true
  | None => ret false
  end.

(** Power parsing: @:127 B@:64 HBR@:89 *)
Definition parse_power (line : string) : M unit :=
  n <- parse_pwm line "@:" "@:%d" set_nozzle_pwm ;;
  b <- parse_pwm line "B@:" "B@:%d" set_bed_pwm ;;
  h <- parse_pwm line "HBR@:" "HBR@:%d" set_heatbreak_pwm ;;
  when (n || b || h) broadcast_power.

(** Temperature parsing, everything under [strstr(line, "T:") &&
    strstr(line, "B:")]. *)
Definition parse_temperature (line : string) : M unit :=
  when (found (strstr line "T:") && found (strstr line "B:")) (
    state_changed <- parse_nozzle_bed line ;;
    parse_heatbreak line ;;
    parse_chamber line ;;
    when state_changed broadcast_temperature ;;
    parse_power line).

(** Progress parsing: "M73 Progress: 9%;" *)
Definition parse_progress (line : string) : M unit :=
  when (found (strstr line "Progress:")) (
    match int1 (sscanf line "%*[^P]Progress: %d%%") with
    | Some v => update_progress (set_percent v) ;; broadcast_progress
    | None => ret tt
    end).

(** "<keyword> 1h 23m" or "<keyword> 19m", stored through [set]; the
    message is built and broadcast whenever the keyword is on the line. *)
Definition parse_minutes (line keyword hm_format m_format : string)
    (set : Z -> progress_state_t -> progress_state_t) : M unit :=
  match strstr line keyword with
  | Some time_str =>
      match int2 (sscanf time_str hm_format) with
      | Some (hours, mins) => update_progress (set (wrap_int (hours * 60 + mins)))
      | None =>
          match int1 (sscanf time_str m_format) with
          | Some mins => update_progress (set mins)
          | None => ret tt
          end
      end ;;
      broadcast_progress
  | None => ret tt
  end.

(** Time left parsing: "Time left: 19m;" or "Time left: 1h 23m;" *)
Definition parse_time_left (line : string) : M unit :=
  parse_minutes line "Time left:" "Time left: %dh %dm" "Time left: %dm"
                set_time_left_mins.

(** Change time parsing: "Change: 16m;" or "Change: 1h 5m;" *)
Definition parse_change (line : string) : M unit :=
  parse_minutes line "Change:" "Change: %dh %dm" "Change: %dm"
                set_change_mins.

(** Position parsing: X:108.67 Y:90.41 Z:2.20 E:0.00 *)
Definition parse_position (line : string) : M unit :=
  when (found (strstr line "X:") && found (strstr line "Y:") &&
        found (strstr line "Z:") && found (strstr line "E:")) (
    (* split at "Count" if present *)
    let temp_line :=
      terminate_at (strncpy line (SERIAL_LINE_BUFFER_SIZE - 1)) "Count" in
    match float4 (sscanf temp_line "%*[^X]X:%f Y:%f Z:%f E:%f") with
    | Some (x, y, z, e) =>
        modify (set_current_position
                  {| pos_x := x; pos_y := y; pos_z := z; pos_e := e |}) ;;
        broadcast_position
    | None => ret tt
    end).

(** Print completion detection *)
Definition parse_completion (line : string) : M unit :=
  when (found (strstr line "Done printing file")) (
    update_progress (set_percent 100) ;;
    update_progress (set_time_left_mins 0) ;;
    broadcast_progress).

Definition parse_and_broadcast_line (line : string) : M unit :=
  (* always send log message *)
  ws_broadcast_message (build_log_message line) ;;
  xSemaphoreTake printer_state_mutex ;;
  parse_temperature line ;;
  parse_progress line ;;
  parse_time_left line ;;
  parse_change line ;;
  parse_position line ;;
  parse_completion line ;;
  xSemaphoreGive printer_state_mutex.

(** ** USB CDC reception: the line assembler *)

(** [serial_line_buffer[i] = c] *)
Definition store_byte (i : nat) (c : ascii) : M unit :=
  modify (fun w => set_serial_line_buffer (<[i := c]> (serial_line_buffer w)) w).

(** [parse_and_broadcast_line(serial_line_buffer)], the terminator being at
    index [len]: the call is recorded with the [len] characters in front
    of the terminator, and the parser reads the array as a C string. *)
Definition parse_buffer (len : nat) : M unit :=
  buf <- gets serial_line_buffer ;;
  emit (RawLine (take len buf)) ;;
  parse_and_broadcast_line (read_c_string buf).

(** The body of the loop of [handle_rx] for the byte [c]. *)
Definition handle_rx_byte (c : ascii) : M unit :=
  pos <- gets serial_line_pos ;;
  if Ascii.eqb c LF || Ascii.eqb c CR then
    (* handle line endings *)
    if Nat.ltb 0 pos then
      store_byte pos NUL ;;
      parse_buffer pos ;;
      (* reset buffer for next line *)
      modify (set_serial_line_pos 0)
    else ret tt
  else
    (* add character to buffer *)
    if Nat.ltb pos (SERIAL_LINE_BUFFER_SIZE - 1) then
      store_byte pos c ;;
      modify (set_serial_line_pos (pos + 1))
    else
      (* buffer overflow - parse what we have and reset *)
      store_byte (SERIAL_LINE_BUFFER_SIZE - 1) NUL ;;
      ESP_LOGW LogLineOverflow ;;
      parse_buffer (SERIAL_LINE_BUFFER_SIZE - 1) ;;
      modify (set_serial_line_pos 0).

Definition handle_rx (data : list ascii) : M bool :=
  for_each data handle_rx_byte ;;
  ret true.

(** The state at process start: zeroed globals, the slots as
    [ws_clients_init] leaves them. *)
Definition initial_world : world :=
  {| ws_clients := ws_clients_init;
     current_temps :=
       {| nozzle_current := 0%Q; nozzle_target := 0%Q; bed_current := 0%Q;
          bed_target := 0%Q; heatbreak_current := 0%Q; heatbreak_target := 0%Q;
          chamber_current := 0%Q |};
     current_progress := {| percent := 0; time_left_mins := 0; change_mins := 0 |};
     current_position := {| pos_x := 0%Q; pos_y := 0%Q; pos_z := 0%Q; pos_e := 0%Q |};
     current_power := {| nozzle_pwm := 0; bed_pwm := 0; heatbreak_pwm := 0 |};
     printer_connected := false;
     serial_line_buffer := replicate SERIAL_LINE_BUFFER_SIZE NUL;
     serial_line_pos := 0 |}.

(** ** The other entry points of the core *)

(** The outcome of [httpd_ws_send_frame_async] is decided by the transport;
    [send_ok fd msg] says whether the frame to [fd] is accepted. *)
Definition transport : Type := Z -> ws_message_t -> bool.

(** [xQueueReceive(queue, &msg, 0)]: the head of the queue, if any. *)
Definition xQueueReceive (queue : list ws_message_t)
  : option (ws_message_t * list ws_message_t) :=
  match queue with
  | [] => None
  | msg :: queue' => Some (msg, queue')
  end.

(** The body of the loop of [ws_sender_task] for slot [i]. *)
Definition send_from (send_ok : transport) (i : nat) : M unit :=
  slot <- gets (fun w => ws_clients w !! i) ;;
  match slot with
  | Some c =>
      if active c then
        match xQueueReceive (message_queue c) with
        | Some (msg, queue') =>
            store_client i {| fd := fd c; active := active c;
                              message_queue := queue' |} ;;
            emit (WsSend (fd c) msg) ;;
            if send_ok (fd c) msg then ret tt
            else ESP_LOGW (LogSendFailed i)
        | None => ret tt
        end
      else ret tt
  | None => ret tt
  end.

(** One pass of the loop of [ws_sender_task], up to the delay. *)
Definition ws_sender_pass (send_ok : transport) : M unit :=
  xSemaphoreTake ws_clients_mutex ;;
  for_loop 0 WS_MAX_CLIENTS (send_from send_ok) ;;
  xSemaphoreGive ws_clients_mutex.

(** [xQueueSend(ws_clients[client_id].message_queue, &msg, 0)] with the
    result ignored, as in the handshake. *)
Definition seed (client_id : nat) (msg : ws_message_t) : M unit :=
  slot <- gets (fun w => ws_clients w !! client_id) ;;
  match slot with
  | Some c =>
      match xQueueSend (message_queue c) msg with
      | Some queue' =>
          store_client client_id {| fd := fd c; active := active c;
                                    message_queue := queue' |}
      | None => ret tt
      end
  | None => ret tt
  end.

(** [ws_handler] on the text frame ["CONNECT"]: the slot is taken and the
    current printer state is queued for the new client. *)
Definition ws_handler_connect (fd0 : Z) : M unit :=
  client_id <- ws_client_add fd0 ;;
  if 0 <=? client_id then
    let i := Z.to_nat client_id in
    xSemaphoreTake printer_state_mutex ;;
    (msg <- gets (fun w => build_status_message (printer_connected w)) ;; seed i msg) ;;
    (msg <- gets (fun w => build_temperature_message (current_temps w)) ;; seed i msg) ;;
    (msg <- gets (fun w => build_progress_message (current_progress w)) ;; seed i msg) ;;
    (msg <- gets (fun w => build_position_message (current_position w)) ;; seed i msg) ;;
    (msg <- gets (fun w => build_power_message (current_power w)) ;; seed i msg) ;;
    xSemaphoreGive printer_state_mutex
  else ret tt.

(** The printer link comes up ([app_main]) or goes down ([handle_event]
    on [CDC_ACM_HOST_DEVICE_DISCONNECTED]): the flag is stored under the
    state lock, then the status is broadcast. *)
Definition set_printer_connected (v : bool) (w : world) : world :=
  {| ws_clients := ws_clients w;
     current_temps := current_temps w;
     current_progress := current_progress w;
     current_position := current_position w;
     current_power := current_power w;
     printer_connected := v;
     serial_line_buffer := serial_line_buffer w;
     serial_line_pos := serial_line_pos w |}.

Definition link_changed (connected : bool) : M unit :=
  xSemaphoreTake printer_state_mutex ;;
  modify (set_printer_connected connected) ;;
  xSemaphoreGive printer_state_mutex ;;
  ws_broadcast_message (build_status_message connected).

(** The operations of the core, as the tasks and callbacks invoke them. *)
Inductive operation : Type :=
| OnData (data : list ascii)            (* handle_rx *)
| OnLine (line : string)                (* parse_and_broadcast_line *)
| OnPublish (msg : ws_message_t)        (* ws_broadcast_message *)
| OnLink (connected : bool)             (* the link comes up or goes down *)
| OnConnect (fd0 : Z)                   (* ws_handler, "CONNECT" *)
| OnClose (fd0 : Z)                     (* ws_handler, close frame *)
| OnSenderPass (send_ok : transport).   (* ws_sender_task, one pass *)

Definition perform (op : operation) : M unit :=
  match op with
  | OnData data => handle_rx data ;; ret tt
  | OnLine line => parse_and_broadcast_line line
  | OnPublish msg => ws_broadcast_message msg
  | OnLink connected => link_changed connected
  | OnConnect fd0 => ws_handler_connect fd0
  | OnClose fd0 => ws_client_remove fd0
  | OnSenderPass send_ok => ws_sender_pass send_ok
  end.


(** ** The log sink *)

(** [if (log_buffer[len-1] == '\n') log_buffer[len-1] = '\0'] *)
Fixpoint strip_newline (s : string) : string :=
  match s with
  | "" => ""
  | String c "" => if Ascii.eqb c LF then "" else String c ""
  | String c rest => String c (strip_newline rest)
  end.

(** [snprintf(dst, size, ...)]: at most [size - 1] characters of the
    expansion. *)
Definition snprintf (size : nat) (expansion : string) : string :=
  strncpy expansion (size - 1).

(** [ws_log_vprintf], the function that [app_main] installs with
    [esp_log_set_vprintf] once the system is up: from then on every
    [ESP_LOGx] of the firmware runs it, in the task that logs. [text] is
    what the format expands to with its arguments. The function prints
    the text on the UART, which is the first component of the result, and
    returns what [vprintf] returned, the number of characters; when the
    text fits [log_buffer], of 256 bytes, it is published as a log
    message behind the prefix. *)
Definition ws_log_vprintf (text : string) : M (string * Z) :=
  (* always print to UART first *)
  let ret_ := Z.of_nat (String.length text) in
  let len := String.length text in
  (if Nat.ltb 0 len && Nat.ltb len 256 then
     let log_buffer := strip_newline text in
     let prefixed_log := snprintf 300 ("[ESP] " ++ log_buffer)%string in
     ws_broadcast_message (build_log_message prefixed_log)
   else ret tt) ;;
  ret (text, ret_).

(** ** The WebSocket endpoint *)


Inductive esp_err_t : Type :=
| ESP_OK
| ESP_FAIL
| ESP_ERR (code : Z).







(** ** The remote page *)

Inductive esp_http_client_event_id_t : Type :=
| HTTP_EVENT_ERROR
| HTTP_EVENT_ON_CONNECTED
| HTTP_EVENT_HEADERS_SENT
| HTTP_EVENT_ON_HEADER
| HTTP_EVENT_ON_DATA
| HTTP_EVENT_ON_FINISH
| HTTP_EVENT_DISCONNECTED.

(** An event as [http_event_handler] reads it: its kind, what
    [esp_http_client_is_chunked_response] and
    [esp_http_client_get_content_length] answer for the client, the data
    of the event, and whether a [malloc] made during the event
    succeeds. *)
Record esp_http_client_event_t : Type := {
  event_id : esp_http_client_event_id_t;
  is_chunked_response : bool;
  content_length : Z;
  data : list ascii;
  malloc_succeeds : bool
}.

(** [download_buffer_t]: [buffer] is NULL or a block, of which the size
    and the bytes in front of the terminator are kept. *)
Record download_buffer_t : Type := {
  buffer : option (nat * list ascii);
  len : nat
}.

(** The handler returns with the buffer updated, or stores outside the
    block it allocated. *)
Inductive handler_step : Type :=
| Handled (err : esp_err_t) (output : download_buffer_t)
| StoreOutsideBlock.

(** [memcpy(buffer + len, data, data_len); len += data_len;
    buffer[len] = 0] on a block of [size] bytes. *)
Definition append_data (size : nat) (bytes : list ascii) (n : nat)
    (d : list ascii) : handler_step :=
  let n' := (n + length d)%nat in
  if Nat.ltb n' size
  then Handled ESP_OK {| buffer := Some (size, take n bytes ++ d); len := n' |}
  else StoreOutsideBlock.

Definition http_event_handler (evt : esp_http_client_event_t)
    (output : download_buffer_t) : handler_step :=
  match event_id evt with
  | HTTP_EVENT_ON_DATA =>
      if negb (is_chunked_response evt) then
        match buffer output with
        | None =>
            if (content_length evt <=? 0) || (500000 <? content_length evt)
            then Handled ESP_FAIL output
            else if malloc_succeeds evt
            then append_data (Z.to_nat (content_length evt) + 1) [] 0 (data evt)
            else Handled ESP_FAIL output
        | Some (size, bytes) => append_data size bytes (len output) (data evt)
        end
      else Handled ESP_OK output
  | _ => Handled ESP_OK output
  end.

(** The page cache, and the text of [last_download_error]. *)
Inductive download_status : Type :=
| NotAttemptedYet
| StartingDownload
| ClientInitFailed
| Downloaded (bytes : nat)                 (* "Success! Downloaded %d bytes" *)
| HttpStatus (status_code : Z) (bytes : nat)   (* "HTTP %d, len=%d" *)
| DownloadFailed (err : esp_err_t).        (* "Failed: %s" *)

Record html_cache : Type := {
  cached_html : option (list ascii);
  cached_html_size : nat;
  last_download_error : download_status
}.

(** [download_html_from_github]. [client] is NULL when
    [esp_http_client_init] fails; otherwise it gives what
    [esp_http_client_perform] returns, the status code, and the download
    buffer as the calls of [http_event_handler] have left it. The cache
    is replaced under [html_mutex]. *)
Definition download_html_from_github
    (client : option (esp_err_t * Z * download_buffer_t)) (h : html_cache)
  : html_cache :=
  match client with
  | None =>
      {| cached_html := cached_html h;
         cached_html_size := cached_html_size h;
         last_download_error := ClientInitFailed |}
  | Some (err, status_code, download) =>
      match err with
      | ESP_OK =>
          match buffer download with
          | Some (_, bytes) =>
              if (status_code =? 200) && Nat.ltb 0 (len download) then
                {| cached_html := Some bytes;
                   cached_html_size := len download;
                   last_download_error := Downloaded (len download) |}
              else
                {| cached_html := cached_html h;
                   cached_html_size := cached_html_size h;
                   last_download_error := HttpStatus status_code (len download) |}
          | None =>
              {| cached_html := cached_html h;
                 cached_html_size := cached_html_size h;
                 last_download_error := HttpStatus status_code (len download) |}
          end
      | _ =>
          {| cached_html := cached_html h;
             cached_html_size := cached_html_size h;
             last_download_error := DownloadFailed err |}
      end
  end.

(** [root_get_handler] with [ENABLE_REMOTE_HTML]: the body of the
    response, [webpage] being the page embedded in the image. *)
Definition root_get_handler (webpage : list ascii) (h : html_cache) : list ascii :=
  match cached_html h with
  | Some page =>
      if Nat.ltb 0 (cached_html_size h)
      then take (cached_html_size h) page
      else webpage
  | None => webpage
  end.

(** * Observations and specification vocabulary *)

(** The three components of a run. *)
Definition returns {A} (m : M A) (w : world) : A := result_of (m w).
Definition exec {A} (m : M A) (w : world) : world := state_of (m w).
Definition trace {A} (m : M A) (w : world) : list effect := effects_of (m w).

(** The messages handed to the broadcaster, and the lines handed to the
    parser, in the order of a trace. *)
Definition published (evs : list effect) : list ws_message_t :=
  omap (fun e => match e with Publish msg => Some msg | _ => None end) evs.

Definition raw_lines (evs : list effect) : list (list ascii) :=
  omap (fun e => match e with RawLine l => Some l | _ => None end) evs.

#[global] Instance message_type_eq_dec : EqDecision message_type_t.
Proof. solve_decision. Defined.

(** The published messages of one type. *)
Definition events_of_type (t : message_type_t) (evs : list effect)
  : list ws_message_t :=
  filter (fun msg => type msg = t) (published evs).

(** ** Frame conditions and effect footprints *)

(** [m] leaves the observation [f] of the world as it was. *)
Definition preserves {A X} (f : world -> X) (m : M A) : Prop :=
  forall w, f (exec m w) = f w.

(** Every effect of [m] satisfies [Q]. *)
Definition emits_only {A} (Q : effect -> Prop) (m : M A) : Prop :=
  forall w, Forall Q (trace m w).

Definition queue_warning (e : effect) : Prop :=
  exists i, e = EspLog LOG_W (LogQueueFull i).

(** A sequence of complete calls of [ws_broadcast_message], each with a
    message that satisfies [P]: the publication, the registry lock taken,
    a warning for every full queue, the registry lock given back. *)
Inductive broadcasts (P : ws_message_t -> Prop) : list effect -> Prop :=
| broadcasts_nil : broadcasts P []
| broadcasts_cons msg warnings rest :
    P msg ->
    Forall queue_warning warnings ->
    broadcasts P rest ->
    broadcasts P (Publish msg :: Take ws_clients_mutex ::
                  warnings ++ Give ws_clients_mutex :: rest).

Definition only_broadcasts {A} (P : ws_message_t -> Prop) (m : M A) : Prop :=
  forall w, broadcasts P (trace m w).

(** The message types the blocks under the state lock may publish. *)
Definition state_change (msg : ws_message_t) : Prop :=
  type msg = MSG_TYPE_TEMPERATURE \/ type msg = MSG_TYPE_POWER \/
  type msg = MSG_TYPE_PROGRESS \/ type msg = MSG_TYPE_POSITION.

(** The nozzle and bed pairs of a temperature record. *)
Definition nozzle_bed (t : temp_state_t) : float * float * float * float :=
  (nozzle_current t, nozzle_target t, bed_current t, bed_target t).

(** The condition guarding the temperature block. *)
Definition both_markers (line : string) : bool :=
  found (strstr line "T:") && found (strstr line "B:").

(** The state in which the temperature block of
    [parse_and_broadcast_line line] starts. *)
Definition at_state_lock (line : string) (w : world) : world :=
  exec (xSemaphoreTake printer_state_mutex)
    (exec (ws_broadcast_message (build_log_message line)) w).

(** The pattern blocks of [parse_and_broadcast_line], which run between
    taking and giving back the state lock. *)
Definition patterns (line : string) : M unit :=
  parse_temperature line ;;
  parse_progress line ;;
  parse_time_left line ;;
  parse_change line ;;
  parse_position line ;;
  parse_completion line.

(** ** Mutex bookkeeping *)

Record locks : Type := {
  state_held : bool;      (* printer_state_mutex *)
  clients_held : bool     (* ws_clients_mutex *)
}.

Definition unlocked : locks := {| state_held := false; clients_held := false |}.

(** The locks held after an effect. *)
Definition held_after (l : locks) (e : effect) : locks :=
  match e with
  | Take printer_state_mutex =>
      {| state_held := true; clients_held := clients_held l |}
  | Take ws_clients_mutex =>
      {| state_held := state_held l; clients_held := true |}
  | Give printer_state_mutex =>
      {| state_held := false; clients_held := clients_held l |}
  | Give ws_clients_mutex =>
      {| state_held := state_held l; clients_held := false |}
  | _ => l
  end.


(** The lock order: a lock is taken only when it is free and given back
    only when it is held; the state lock is taken only when the registry
    lock is free, and given back only after the registry lock. *)
Definition permitted (l : locks) (e : effect) : bool :=
  match e with
  | Take printer_state_mutex => negb (state_held l) && negb (clients_held l)
  | Take ws_clients_mutex => negb (clients_held l)
  | Give printer_state_mutex => state_held l && negb (clients_held l)
  | Give ws_clients_mutex => clients_held l
  | _ => true
  end.

(** The locks held at the end of a trace that keeps the lock order. *)
Fixpoint lock_order (l : locks) (evs : list effect) : option locks :=
  match evs with
  | [] => Some l
  | e :: evs' =>
      if permitted l e then lock_order (held_after l e) evs' else None
  end.


(** ** Escaping, in full *)






(** ** The line assembler on the accumulated characters *)

Definition is_terminator (c : ascii) : bool := Ascii.eqb c LF || Ascii.eqb c CR.

(** The characters accumulated since the last line. *)
Definition accumulated (w : world) : list ascii :=
  take (serial_line_pos w) (serial_line_buffer w).

(** The buffer has its declared size and the position leaves room for the
    terminator. *)
Definition rx_ok (w : world) : Prop :=
  length (serial_line_buffer w) = SERIAL_LINE_BUFFER_SIZE /\
  (serial_line_pos w <= SERIAL_LINE_BUFFER_SIZE - 1)%nat.

(** One byte: the lines handed over and the characters kept. A terminator
    hands over what is accumulated, unless that is nothing; any other byte
    is appended while there is room, and otherwise makes the assembler
    hand over what is accumulated and start afresh, without the byte. *)
Definition assemble_byte (acc : list ascii) (c : ascii)
  : list (list ascii) * list ascii :=
  if is_terminator c then
    match acc with
    | [] => ([], [])
    | _ => ([acc], [])
    end
  else if Nat.ltb (length acc) (SERIAL_LINE_BUFFER_SIZE - 1) then ([], acc ++ [c])
  else ([acc], []).

Fixpoint assemble (acc : list ascii) (data : list ascii) : list (list ascii) :=
  match data with
  | [] => []
  | c :: data' =>
      let '(out, acc') := assemble_byte acc c in
      out ++ assemble acc' data'
  end.

(** ** Queues under a sequence of publications *)

(** What one broadcast does to a slot. *)
Definition deliver (msg : ws_message_t) (c : ws_client_t) : ws_client_t :=
  if active c then
    match xQueueSend (message_queue c) msg with
    | Some queue' => {| fd := fd c; active := active c; message_queue := queue' |}
    | None => c
    end
  else c.


(** One client connected to a fresh system, and 51 distinct events. *)
Definition one_client_world : world := exec (ws_client_add 3) initial_world.

Definition fifty_one_events : list ws_message_t :=
  map (fun n => build_progress_message
                  {| percent := Z.of_nat n; time_left_mins := 0; change_mins := 0 |})
      (seq 0 51).


(** ** The registry, the queues and the frames on the wire *)

(** The registry has its [WS_MAX_CLIENTS] slots, and no queue holds more
    than the [WS_MESSAGE_QUEUE_SIZE] places it was created with. *)
Definition registry_ok (w : world) : Prop :=
  length (ws_clients w) = WS_MAX_CLIENTS /\
  Forall (fun c => (length (message_queue c) <= WS_MESSAGE_QUEUE_SIZE)%nat)
         (ws_clients w).

(** A run keeps an invariant of the state. *)
Definition keeps {A} (I : world -> Prop) (m : M A) : Prop :=
  forall w, I w -> I (exec m w).

(** The frames handed to the transport, in the order of a trace. *)
Definition frames (evs : list effect) : list (Z * ws_message_t) :=
  omap (fun e => match e with WsSend fd0 msg => Some (fd0, msg) | _ => None end) evs.





(** A registry with every slot taken. *)
Definition full_world : world :=
  exec (ws_client_add 6)
    (exec (ws_client_add 5) (exec (ws_client_add 4) one_client_world)).

(** The messages sent to one descriptor, in the order of a trace. *)
Definition frames_to (fd0 : Z) (evs : list effect) : list ws_message_t :=
  omap (fun e => match e with
                 | WsSend fd1 msg => if fd1 =? fd0 then Some msg else None
                 | _ => None
                 end) evs.



(** ** What the subscribers see of the printer state *)

(** The state without the registry: the printer state and the line
    assembler. *)
Definition without_registry (w : world) : world := set_ws_clients [] w.

(** A part [state] of the printer state, published by [build] under the
    type [t], is announced by [m]: a run that publishes such messages ends
    in the state that the last of them shows, and a run that publishes
    none leaves that part of the state as it was. *)
Definition announced {A S} (t : message_type_t) (state : world -> S)
    (build : S -> ws_message_t) (m : M A) : Prop :=
  forall w,
    match last (events_of_type t (trace m w)) with
    | Some msg => msg = build (state (exec m w))
    | None => state (exec m w) = state w
    end.

(** The run publishes such a message, the last one showing the state at
    its end. *)
Definition announces {A S} (t : message_type_t) (state : world -> S)
    (build : S -> ws_message_t) (m : M A) : Prop :=
  forall w, last (events_of_type t (trace m w)) = Some (build (state (exec m w))).


(** ** Lines on the wire *)




(** ** Log calls and the locks *)

(** The locks held at each [ESP_LOGx] of a trace that starts with the
    locks [l]. *)
Fixpoint locks_at_logs (l : locks) (evs : list effect) : list locks :=
  match evs with
  | [] => []
  | EspLog _ _ :: evs' => l :: locks_at_logs l evs'
  | e :: evs' => locks_at_logs (held_after l e) evs'
  end.

(** ** What the endpoint sends to the printer *)



(** ** A download, event by event *)

(** The handler on the events of one response, in order: the buffer at
    the end, or [None] once a store falls outside the block. *)
Fixpoint feed (events : list esp_http_client_event_t) (output : download_buffer_t)
  : option download_buffer_t :=
  match events with
  | [] => Some output
  | evt :: events' =>
      match http_event_handler evt output with
      | Handled _ output' => feed events' output'
      | StoreOutsideBlock => None
      end
  end.

(** A data event of a response that is not chunked and announces [size]
    bytes. *)
Definition data_event (size : Z) (d : list ascii) : esp_http_client_event_t :=
  {| event_id := HTTP_EVENT_ON_DATA;
     is_chunked_response := false;
     content_length := size;
     data := d;
     malloc_succeeds := true |}.

(** The download failed, or brought nothing to cache. *)
Definition nothing_to_cache (client : option (esp_err_t * Z * download_buffer_t))
  : Prop :=
  match client with
  | None => True
  | Some (err, status_code, download) =>
      err <> ESP_OK \/ status_code <> 200 \/ buffer download = None \/
      len download = 0%nat
  end.

(** ** From the printer to the wire *)


(** * Reasoning about firmware computations *)


Section Monad.
Context {A B : Type}.
Implicit Types (m : M A) (k : A -> M B) (w : world).

Lemma returns_bind m k w :
  returns (bind m k) w = returns (k (returns m w)) (exec m w).
Proof.
  unfold returns, exec, bind, result_of, state_of, effects_of.
  destruct (m w) as [[a w1] e1]; simpl.
  destruct (k a w1) as [[b w2] e2]; reflexivity.
Qed.

Lemma exec_bind m k w :
  exec (bind m k) w = exec (k (returns m w)) (exec m w).
Proof.
  unfold returns, exec, bind, result_of, state_of, effects_of.
  destruct (m w) as [[a w1] e1]; simpl.
  destruct (k a w1) as [[b w2] e2]; reflexivity.
Qed.

Lemma trace_bind m k w :
  trace (bind m k) w = trace m w ++ trace (k (returns m w)) (exec m w).
Proof.
  unfold returns, exec, trace, bind, result_of, state_of, effects_of.
  destruct (m w) as [[a w1] e1]; simpl.
  destruct (k a w1) as [[b w2] e2]; reflexivity.
Qed.
End Monad.

Lemma published_app e1 e2 : published (e1 ++ e2) = published e1 ++ published e2.
Proof. apply omap_app. Qed.

Lemma raw_lines_app e1 e2 : raw_lines (e1 ++ e2) = raw_lines e1 ++ raw_lines e2.
Proof. apply omap_app. Qed.

Lemma events_of_type_app t e1 e2 :
  events_of_type t (e1 ++ e2) = events_of_type t e1 ++ events_of_type t e2.
Proof. unfold events_of_type. now rewrite published_app, filter_app. Qed.


Section Rules.
Context {X : Type} (f : world -> X) (Q : effect -> Prop).

Lemma preserves_ret {A} (a : A) : preserves f (ret a).
Proof. intros w. reflexivity. Qed.

Lemma preserves_gets {A} (g : world -> A) : preserves f (gets g).
Proof. intros w. reflexivity. Qed.

Lemma preserves_emit e : preserves f (emit e).
Proof. intros w. reflexivity. Qed.

Lemma preserves_modify g :
  (forall w, f (g w) = f w) -> preserves f (modify g).
Proof. intros H w. apply H. Qed.

Lemma preserves_bind {A B} (m : M A) (k : A -> M B) :
  preserves f m -> (forall a, preserves f (k a)) -> preserves f (bind m k).
Proof. intros Hm Hk w. rewrite exec_bind, Hk. apply Hm. Qed.

Lemma preserves_when b m : preserves f m -> preserves f (when b m).
Proof. destruct b; [trivial | intros _; apply preserves_ret]. Qed.

Lemma preserves_for_loop body start count :
  (forall i, preserves f (body i)) -> preserves f (for_loop start count body).
Proof.
  intros H. revert start.
  induction count as [|n IH]; intros start; simpl.
  - apply preserves_ret.
  - apply preserves_bind; auto.
Qed.

Lemma preserves_for_each {A} (l : list A) body :
  (forall a, preserves f (body a)) -> preserves f (for_each l body).
Proof.
  intros H. induction l as [|a l IH]; simpl.
  - apply preserves_ret.
  - apply preserves_bind; auto.
Qed.

Lemma emits_ret {A} (a : A) : emits_only Q (ret a).
Proof. intros w. constructor. Qed.

Lemma emits_gets {A} (g : world -> A) : emits_only Q (gets g).
Proof. intros w. constructor. Qed.

Lemma emits_modify g : emits_only Q (modify g).
Proof. intros w. constructor. Qed.

Lemma emits_emit e : Q e -> emits_only Q (emit e).
Proof. intros H w. repeat constructor. exact H. Qed.

Lemma emits_bind {A B} (m : M A) (k : A -> M B) :
  emits_only Q m -> (forall a, emits_only Q (k a)) -> emits_only Q (bind m k).
Proof.
  intros Hm Hk w. rewrite trace_bind. apply Forall_app. split; [apply Hm | apply Hk].
Qed.


Lemma emits_for_loop body start count :
  (forall i, emits_only Q (body i)) -> emits_only Q (for_loop start count body).
Proof.
  intros H. revert start.
  induction count as [|n IH]; intros start; simpl.
  - apply emits_ret.
  - apply emits_bind; auto.
Qed.

Lemma emits_for_each {A} (l : list A) body :
  (forall a, emits_only Q (body a)) -> emits_only Q (for_each l body).
Proof.
  intros H. induction l as [|a l IH]; simpl.
  - apply emits_ret.
  - apply emits_bind; auto.
Qed.
End Rules.

(** The footprint of the broadcaster: it writes [ws_clients] only, and
    its effects are the publication, the registry lock, and a warning for
    each full queue. *)
Lemma ws_broadcast_preserves {X} (f : world -> X) msg :
  (forall v w, f (set_ws_clients v w) = f w) ->
  preserves f (ws_broadcast_message msg).
Proof.
  intros H. unfold ws_broadcast_message, xSemaphoreTake, xSemaphoreGive.
  apply preserves_bind; [apply preserves_emit | intros _].
  apply preserves_bind; [apply preserves_emit | intros _].
  apply preserves_bind; [| intros _; apply preserves_emit].
  apply preserves_for_loop. intros i. unfold broadcast_to.
  apply preserves_bind; [apply preserves_gets | intros [c|]];
    [| apply preserves_ret].
  destruct (active c); [| apply preserves_ret].
  destruct (xQueueSend _ _); [| apply preserves_emit].
  apply preserves_modify. intros w. apply H.
Qed.


(** ** The shape of a trace of broadcasts *)


Lemma broadcasts_app P e1 e2 :
  broadcasts P e1 -> broadcasts P e2 -> broadcasts P (e1 ++ e2).
Proof.
  induction 1 as [|msg ws rest Hm Hw Hr IH]; intros H2; [exact H2 |].
  simpl. rewrite <- app_assoc. simpl.
  constructor; auto.
Qed.


Lemma trace_for_loop_warnings msg start count w :
  Forall queue_warning (trace (for_loop start count (broadcast_to msg)) w).
Proof.
  apply emits_for_loop. intros i. unfold broadcast_to.
  apply emits_bind; [apply emits_gets | intros [c|]]; [| apply emits_ret].
  destruct (active c); [| apply emits_ret].
  destruct (xQueueSend _ _); [apply emits_modify |].
  apply emits_emit. now exists i.
Qed.

(** The trace of one call of the broadcaster. *)
Lemma trace_ws_broadcast_message msg w :
  exists warnings,
    Forall queue_warning warnings /\
    trace (ws_broadcast_message msg) w =
      Publish msg :: Take ws_clients_mutex :: warnings ++ [Give ws_clients_mutex].
Proof.
  unfold ws_broadcast_message, xSemaphoreTake, xSemaphoreGive.
  rewrite !trace_bind.
  exists (trace (for_loop 0 WS_MAX_CLIENTS (broadcast_to msg)) w).
  split; [apply trace_for_loop_warnings | reflexivity].
Qed.

Section BroadcastRules.
Context (P : ws_message_t -> Prop).

Lemma only_broadcasts_ws msg : P msg -> only_broadcasts P (ws_broadcast_message msg).
Proof.
  intros HP w. destruct (trace_ws_broadcast_message msg w) as (ws & Hws & ->).
  now repeat constructor.
Qed.

Lemma only_broadcasts_ret {A} (a : A) : only_broadcasts P (ret a).
Proof. intros w. constructor. Qed.

Lemma only_broadcasts_gets {A} (g : world -> A) : only_broadcasts P (gets g).
Proof. intros w. constructor. Qed.

Lemma only_broadcasts_modify g : only_broadcasts P (modify g).
Proof. intros w. constructor. Qed.

Lemma only_broadcasts_bind {A B} (m : M A) (k : A -> M B) :
  only_broadcasts P m -> (forall a, only_broadcasts P (k a)) ->
  only_broadcasts P (bind m k).
Proof.
  intros Hm Hk w. rewrite trace_bind.
  apply broadcasts_app; [apply Hm | apply Hk].
Qed.

Lemma only_broadcasts_when b m :
  only_broadcasts P m -> only_broadcasts P (when b m).
Proof. destruct b; [trivial | intros _; apply only_broadcasts_ret]. Qed.

(** A message built from the current state and broadcast. *)
Lemma only_broadcasts_built (build : world -> ws_message_t) :
  (forall w, P (build w)) ->
  only_broadcasts P (bind (gets build) (fun msg => ws_broadcast_message msg)).
Proof.
  intros H w. rewrite trace_bind. apply (only_broadcasts_ws _ (H w)).
Qed.
End BroadcastRules.

(** What a trace of broadcasts contains. *)
Lemma published_warnings ws : Forall queue_warning ws -> published ws = [].
Proof. induction 1 as [|e ws [i ->] _ IH]; [reflexivity | exact IH]. Qed.

Lemma raw_lines_warnings ws : Forall queue_warning ws -> raw_lines ws = [].
Proof. induction 1 as [|e ws [i ->] _ IH]; [reflexivity | exact IH]. Qed.

Lemma broadcast_section msg ws rest :
  Publish msg :: Take ws_clients_mutex :: ws ++ Give ws_clients_mutex :: rest =
  [Publish msg; Take ws_clients_mutex] ++ ws ++ [Give ws_clients_mutex] ++ rest.
Proof. reflexivity. Qed.

Lemma broadcasts_published P evs :
  broadcasts P evs -> Forall P (published evs).
Proof.
  induction 1 as [|msg ws rest Hm Hw Hr IH]; [constructor |].
  rewrite broadcast_section, !published_app, (published_warnings ws Hw).
  constructor; [exact Hm | exact IH].
Qed.

Lemma broadcasts_raw_lines P evs : broadcasts P evs -> raw_lines evs = [].
Proof.
  induction 1 as [|msg ws rest Hm Hw Hr IH]; [reflexivity |].
  rewrite broadcast_section, !raw_lines_app, (raw_lines_warnings ws Hw), IH.
  reflexivity.
Qed.

Lemma broadcasts_none_of_type P t evs :
  broadcasts P evs -> (forall msg, P msg -> type msg <> t) ->
  events_of_type t evs = [].
Proof.
  intros H Ht. apply broadcasts_published in H. unfold events_of_type.
  induction H as [|msg l Hm _ IH]; [reflexivity |].
  rewrite filter_cons. destruct (decide (type msg = t)) as [E|_]; [| exact IH].
  now apply Ht in Hm.
Qed.

(** ** Footprints of the parser blocks *)

Ltac unfold_parser :=
  unfold parse_temperature, parse_nozzle_bed, parse_heatbreak, parse_chamber,
    parse_power, parse_pwm, parse_progress, parse_time_left, parse_change,
    parse_minutes, parse_position, parse_completion,
    broadcast_temperature, broadcast_power, broadcast_progress,
    broadcast_position, update_temps, update_power, update_progress,
    xSemaphoreTake, xSemaphoreGive, ESP_LOGW, ESP_LOGI.

Ltac case_scrutinee :=
  match goal with
  | |- context [match ?x with _ => _ end] =>
      lazymatch x with
      | context [match _ with _ => _ end] => fail
      | _ => destruct x
      end
  end.

Ltac frame_step :=
  first
    [ apply preserves_ret
    | apply preserves_gets
    | apply preserves_emit
    | apply preserves_when
    | apply ws_broadcast_preserves; intros; reflexivity
    | apply preserves_modify; intros; reflexivity
    | apply preserves_bind; [| intros ?]
    | progress cbv zeta
    | case_scrutinee ].

(** Proves [preserves f m] for a parser block [m] that does not assign what
    [f] reads. *)
Ltac frame := unfold_parser; repeat frame_step.

Ltac shape_step :=
  first
    [ apply only_broadcasts_ret
    | apply only_broadcasts_gets
    | apply only_broadcasts_modify
    | apply only_broadcasts_when
    | apply only_broadcasts_built; intros; cbn; auto
    | apply only_broadcasts_ws; cbn; auto
    | apply only_broadcasts_bind; [| intros ?]
    | progress cbv zeta
    | case_scrutinee ].

(** Proves [only_broadcasts P m] for a parser block [m]. *)
Ltac shape := unfold_parser; repeat shape_step.


Section Footprints.
Variable line : string.

(** The temperature block publishes temperature and power messages and
    assigns [current_temps] and [current_power]. *)
Lemma parse_temperature_shape :
  only_broadcasts
    (fun msg => type msg = MSG_TYPE_TEMPERATURE \/ type msg = MSG_TYPE_POWER)
    (parse_temperature line).
Proof. shape. Qed.

Lemma parse_temperature_progress :
  preserves current_progress (parse_temperature line).
Proof. frame. Qed.

Lemma parse_temperature_position :
  preserves current_position (parse_temperature line).
Proof. frame. Qed.

Lemma parse_power_temps : preserves current_temps (parse_power line).
Proof. frame. Qed.

(** The three progress blocks and the completion block publish progress
    messages and assign [current_progress]. *)
Lemma parse_progress_shape :
  only_broadcasts (fun msg => type msg = MSG_TYPE_PROGRESS) (parse_progress line).
Proof. shape. Qed.

Lemma parse_time_left_shape :
  only_broadcasts (fun msg => type msg = MSG_TYPE_PROGRESS) (parse_time_left line).
Proof. shape. Qed.

Lemma parse_change_shape :
  only_broadcasts (fun msg => type msg = MSG_TYPE_PROGRESS) (parse_change line).
Proof. shape. Qed.

Lemma parse_completion_shape :
  only_broadcasts (fun msg => type msg = MSG_TYPE_PROGRESS) (parse_completion line).
Proof. shape. Qed.

Lemma parse_progress_temps : preserves current_temps (parse_progress line).
Proof. frame. Qed.
Lemma parse_time_left_temps : preserves current_temps (parse_time_left line).
Proof. frame. Qed.
Lemma parse_change_temps : preserves current_temps (parse_change line).
Proof. frame. Qed.
Lemma parse_completion_temps : preserves current_temps (parse_completion line).
Proof. frame. Qed.

Lemma parse_progress_position : preserves current_position (parse_progress line).
Proof. frame. Qed.
Lemma parse_time_left_position : preserves current_position (parse_time_left line).
Proof. frame. Qed.
Lemma parse_change_position : preserves current_position (parse_change line).
Proof. frame. Qed.
Lemma parse_completion_position : preserves current_position (parse_completion line).
Proof. frame. Qed.

(** The position block publishes position messages and assigns
    [current_position]. *)
Lemma parse_position_shape :
  only_broadcasts (fun msg => type msg = MSG_TYPE_POSITION) (parse_position line).
Proof. shape. Qed.

Lemma parse_position_temps : preserves current_temps (parse_position line).
Proof. frame. Qed.

Lemma parse_position_progress : preserves current_progress (parse_position line).
Proof. frame. Qed.

(** No block touches the line assembler. *)
Lemma parse_and_broadcast_line_buffer :
  preserves serial_line_buffer (parse_and_broadcast_line line).
Proof. unfold parse_and_broadcast_line. frame. Qed.

Lemma parse_and_broadcast_line_pos :
  preserves serial_line_pos (parse_and_broadcast_line line).
Proof. unfold parse_and_broadcast_line. frame. Qed.
End Footprints.

(** ** Equations for running the primitives *)

Section Equations.
Context {A : Type}.
Implicit Types (a : A) (w : world).

Lemma returns_ret a w : returns (ret a) w = a.
Proof. reflexivity. Qed.
Lemma exec_ret a w : exec (ret a) w = w.
Proof. reflexivity. Qed.
Lemma trace_ret a w : trace (ret a) w = [].
Proof. reflexivity. Qed.

Lemma returns_gets (g : world -> A) w : returns (gets g) w = g w.
Proof. reflexivity. Qed.
Lemma exec_gets (g : world -> A) w : exec (gets g) w = w.
Proof. reflexivity. Qed.
Lemma trace_gets (g : world -> A) w : trace (gets g) w = [].
Proof. reflexivity. Qed.
End Equations.

Lemma exec_modify g w : exec (modify g) w = g w.
Proof. reflexivity. Qed.
Lemma trace_modify g w : trace (modify g) w = [].
Proof. reflexivity. Qed.
Lemma exec_emit e w : exec (emit e) w = w.
Proof. reflexivity. Qed.
Lemma trace_emit e w : trace (emit e) w = [e].
Proof. reflexivity. Qed.
Lemma when_true m : when true m = m.
Proof. reflexivity. Qed.
Lemma when_false m : when false m = ret tt.
Proof. reflexivity. Qed.

Create Rewrite HintDb firmware.
#[global] Hint Rewrite @returns_bind @exec_bind @trace_bind
  @returns_ret @exec_ret @trace_ret @returns_gets @exec_gets @trace_gets
  exec_modify trace_modify exec_emit trace_emit when_true when_false
  events_of_type_app published_app raw_lines_app app_nil_r app_nil_l
  : firmware.

Ltac run := autorewrite with firmware.

(** One broadcast publishes its message and nothing else. *)
Lemma published_ws_broadcast_message msg w :
  published (trace (ws_broadcast_message msg) w) = [msg].
Proof.
  destruct (trace_ws_broadcast_message msg w) as (ws & Hws & ->).
  change (Publish msg :: Take ws_clients_mutex :: ws ++ [Give ws_clients_mutex])
    with ([Publish msg; Take ws_clients_mutex] ++ ws ++ [Give ws_clients_mutex]).
  now rewrite !published_app, (published_warnings ws Hws).
Qed.

Lemma events_of_type_ws_broadcast_message t msg w :
  events_of_type t (trace (ws_broadcast_message msg) w) =
  if decide (type msg = t) then [msg] else [].
Proof.
  unfold events_of_type. rewrite published_ws_broadcast_message.
  rewrite filter_cons, filter_nil. reflexivity.
Qed.

Lemma none_of_type {A} (P : ws_message_t -> Prop) t (m : M A) w :
  only_broadcasts P m -> (forall msg, P msg -> type msg <> t) ->
  events_of_type t (trace m w) = [].
Proof. intros H Ht. eapply broadcasts_none_of_type; [apply H | exact Ht]. Qed.


Lemma scan_at_present line marker format v vs :
  scan_at line marker format = v :: vs -> found (strstr line marker) = true.
Proof. unfold scan_at. destruct (strstr line marker); [reflexivity | discriminate]. Qed.

Lemma float2_present line marker format p :
  float2 (scan_at line marker format) = Some p -> found (strstr line marker) = true.
Proof.
  destruct (scan_at line marker format) as [|v vs] eqn:E; [discriminate |].
  intros _. eapply scan_at_present, E.
Qed.

Lemma float1_present line marker format p :
  float1 (scan_at line marker format) = Some p -> found (strstr line marker) = true.
Proof.
  destruct (scan_at line marker format) as [|v vs] eqn:E; [discriminate |].
  intros _. eapply scan_at_present, E.
Qed.

(** ** The temperature block *)

Section TemperatureBlock.
Variables (line : string) (w : world).

Lemma trace_parse_heatbreak : trace (parse_heatbreak line) w = [].
Proof.
  unfold parse_heatbreak.
  destruct (float2 _) as [[hc ht]|]; reflexivity.
Qed.

Lemma trace_parse_chamber : trace (parse_chamber line) w = [].
Proof.
  unfold parse_chamber.
  destruct (float1 _) as [c|]; reflexivity.
Qed.

Lemma parse_power_shape :
  only_broadcasts (fun msg => type msg = MSG_TYPE_POWER) (parse_power line).
Proof. shape. Qed.

Lemma trace_broadcast_temperature t :
  events_of_type t (trace broadcast_temperature w) =
  if decide (MSG_TYPE_TEMPERATURE = t)
  then [build_temperature_message (current_temps w)] else [].
Proof.
  unfold broadcast_temperature. run.
  now rewrite events_of_type_ws_broadcast_message.
Qed.

End TemperatureBlock.

Lemma events_of_type_nil t : events_of_type t [] = [].
Proof. reflexivity. Qed.
Lemma events_of_type_take t m : events_of_type t [Take m] = [].
Proof. reflexivity. Qed.
Lemma events_of_type_give t m : events_of_type t [Give m] = [].
Proof. reflexivity. Qed.
#[global] Hint Rewrite events_of_type_nil events_of_type_take
  events_of_type_give : firmware.

(** [skip f m] rewrites [f (exec m w)] to [f w] when the block [m] does
    not assign what [f] reads. *)
Ltac skip f m :=
  let H := fresh in
  assert (H : preserves f m) by (try unfold parse_and_broadcast_line; frame);
  unfold preserves in H; cbv beta in H; rewrite !H; clear H.



Section TemperatureSpec.
Variables (line : string) (w : world).


(** Without both markers the block does nothing at all. *)
Lemma parse_temperature_closed :
  both_markers line = false -> parse_temperature line = ret tt.
Proof. unfold both_markers, parse_temperature. now intros ->. Qed.

Lemma gate_closed_of_absent :
  strstr line "T:" = None \/ strstr line "B:" = None ->
  both_markers line = false.
Proof.
  unfold both_markers. intros [-> | ->]; [reflexivity |].
  now destruct (found _).
Qed.

(** Both pairs scan: nozzle and bed take the scanned values and one
    temperature message with the new record is published. *)
Lemma parse_temperature_success nc nt bc bt :
  float2 (scan_at line "T:" "T:%f/%f") = Some (nc, nt) ->
  float2 (scan_at line "B:" "B:%f/%f") = Some (bc, bt) ->
  let temps := current_temps (exec (parse_temperature line) w) in
  nozzle_bed temps = (nc, nt, bc, bt) /\
  events_of_type MSG_TYPE_TEMPERATURE (trace (parse_temperature line) w) =
    [build_temperature_message temps].
Proof.
  intros HT HB temps. subst temps. unfold parse_temperature.
  rewrite (float2_present _ _ _ _ HT), (float2_present _ _ _ _ HB). cbn [andb].
  rewrite when_true. unfold parse_nozzle_bed. rewrite HT, HB.
  run.
  skip current_temps (parse_power line).
  skip current_temps broadcast_temperature.
  rewrite trace_parse_heatbreak, trace_parse_chamber, trace_broadcast_temperature.
  rewrite (none_of_type _ _ _ _ (parse_power_shape line))
    by (intros ? ->; discriminate).
  run. split; [| reflexivity].
  skip (fun w => nozzle_bed (current_temps w)) (parse_chamber line).
  skip (fun w => nozzle_bed (current_temps w)) (parse_heatbreak line).
  reflexivity.
Qed.

(** One pair does not scan: nozzle and bed stay, no temperature message. *)
Lemma parse_temperature_failure :
  float2 (scan_at line "T:" "T:%f/%f") = None \/
  float2 (scan_at line "B:" "B:%f/%f") = None ->
  nozzle_bed (current_temps (exec (parse_temperature line) w)) =
    nozzle_bed (current_temps w) /\
  events_of_type MSG_TYPE_TEMPERATURE (trace (parse_temperature line) w) = [].
Proof.
  intros H. unfold parse_temperature. destruct (_ && _); [| now split].
  rewrite when_true.
  assert (Hnb : parse_nozzle_bed line = ret false).
  { unfold parse_nozzle_bed. destruct H as [-> | ->]; [reflexivity |].
    now destruct (float2 _) as [[? ?]|]. }
  rewrite Hnb. run.
  rewrite trace_parse_heatbreak, trace_parse_chamber.
  rewrite (none_of_type _ _ _ _ (parse_power_shape line))
    by (intros ? ->; discriminate).
  run. split; [| reflexivity].
  skip (fun w => nozzle_bed (current_temps w)) (parse_power line).
  skip (fun w => nozzle_bed (current_temps w)) (parse_chamber line).
  skip (fun w => nozzle_bed (current_temps w)) (parse_heatbreak line).
  reflexivity.
Qed.

(** With both markers on the line the auxiliary zones are scanned,
    whatever became of the nozzle and bed pairs. *)
Lemma parse_temperature_heatbreak hc ht :
  both_markers line = true ->
  float2 (scan_at line "X:" "X:%f/%f") = Some (hc, ht) ->
  heatbreak_current (current_temps (exec (parse_temperature line) w)) = hc /\
  heatbreak_target (current_temps (exec (parse_temperature line) w)) = ht.
Proof.
  unfold both_markers, parse_temperature. intros -> HX. rewrite when_true. run.
  skip current_temps (parse_power line).
  skip current_temps (when (returns (parse_nozzle_bed line) w) broadcast_temperature).
  skip (fun w => heatbreak_current (current_temps w)) (parse_chamber line).
  skip (fun w => heatbreak_target (current_temps w)) (parse_chamber line).
  unfold parse_heatbreak. rewrite HX. now split.
Qed.

Lemma parse_temperature_chamber c :
  both_markers line = true ->
  float1 (scan_at line "C@:" "C@:%f") = Some c ->
  chamber_current (current_temps (exec (parse_temperature line) w)) = c.
Proof.
  unfold both_markers, parse_temperature. intros -> HC. rewrite when_true. run.
  skip current_temps (parse_power line).
  skip current_temps (when (returns (parse_nozzle_bed line) w) broadcast_temperature).
  unfold parse_chamber. rewrite HC. reflexivity.
Qed.
End TemperatureSpec.

(** ** The whole line: what the other blocks leave of the temperature *)

Section LineTemperature.
Variables (line : string) (w : world).


Lemma at_state_lock_temps :
  current_temps (at_state_lock line w) = current_temps w.
Proof.
  unfold at_state_lock.
  skip current_temps (xSemaphoreTake printer_state_mutex).
  skip current_temps (ws_broadcast_message (build_log_message line)).
  reflexivity.
Qed.

Lemma line_temps :
  current_temps (exec (parse_and_broadcast_line line) w) =
  current_temps (exec (parse_temperature line) (at_state_lock line w)).
Proof.
  unfold parse_and_broadcast_line, at_state_lock. run.
  skip current_temps (xSemaphoreGive printer_state_mutex).
  skip current_temps (parse_completion line).
  skip current_temps (parse_position line).
  skip current_temps (parse_change line).
  skip current_temps (parse_time_left line).
  skip current_temps (parse_progress line).
  reflexivity.
Qed.

Lemma line_temperature_events :
  events_of_type MSG_TYPE_TEMPERATURE (trace (parse_and_broadcast_line line) w) =
  events_of_type MSG_TYPE_TEMPERATURE
    (trace (parse_temperature line) (at_state_lock line w)).
Proof.
  unfold parse_and_broadcast_line, at_state_lock. run.
  rewrite events_of_type_ws_broadcast_message.
  unfold xSemaphoreTake, xSemaphoreGive. run.
  rewrite (none_of_type _ _ _ _ (parse_progress_shape line))
    by (intros ? ->; discriminate).
  rewrite (none_of_type _ _ _ _ (parse_time_left_shape line))
    by (intros ? ->; discriminate).
  rewrite (none_of_type _ _ _ _ (parse_change_shape line))
    by (intros ? ->; discriminate).
  rewrite (none_of_type _ _ _ _ (parse_position_shape line))
    by (intros ? ->; discriminate).
  rewrite (none_of_type _ _ _ _ (parse_completion_shape line))
    by (intros ? ->; discriminate).
  cbn. run. reflexivity.
Qed.
End LineTemperature.

(** * Properties of the parser *)



(** C2, as the code has it. The auxiliary zones are scanned inside the
    branch guarded by [strstr(line, "T:") && strstr(line, "B:")]: when both
    markers are on the line, a heatbreak pair or a chamber value that scans
    is stored, whether or not the nozzle and bed pairs scan; when one of
    the two markers is missing, no temperature is stored at all. *)
Theorem auxiliary_zones_behind_dual_markers (line : string) (w : world) :
  let w' := exec (parse_and_broadcast_line line) w in
  (found (strstr line "T:") = true -> found (strstr line "B:") = true ->
     (forall hc ht,
         float2 (scan_at line "X:" "X:%f/%f") = Some (hc, ht) ->
         heatbreak_current (current_temps w') = hc /\
         heatbreak_target (current_temps w') = ht) /\
     (forall c,
         float1 (scan_at line "C@:" "C@:%f") = Some c ->
         chamber_current (current_temps w') = c)) /\
  (strstr line "T:" = None \/ strstr line "B:" = None ->
     current_temps w' = current_temps w).
Proof.
  cbv zeta. rewrite line_temps. split.
  - intros HT HB.
    assert (Hg : both_markers line = true) by (unfold both_markers; now rewrite HT, HB).
    split.
    + intros hc ht HX. now apply parse_temperature_heatbreak.
    + intros c HC. now apply parse_temperature_chamber.
  - intros H. apply gate_closed_of_absent in H.
    rewrite (parse_temperature_closed _ H).
    apply at_state_lock_temps.
Qed.

Lemma auxiliary_zones_behind_dual_markers_witness :
  let line := "T:-- B:-- X:45.0/36.0 C@:22.5" in
  let w' := exec (parse_and_broadcast_line line) initial_world in
  (heatbreak_current (current_temps w') = 45%Q /\
   heatbreak_target (current_temps w') = 36%Q) /\
  chamber_current (current_temps w') = (45 # 2)%Q.
Proof.
  cbv zeta.
  destruct (proj1 (auxiliary_zones_behind_dual_markers
                     "T:-- B:-- X:45.0/36.0 C@:22.5" initial_world)
              eq_refl eq_refl) as [HX HC].
  split; [apply HX | apply HC]; reflexivity.
Defined.

(** C2, as the claim has it, fails: on a line with the heatbreak and the
    chamber marker but without the dual-zone markers both values scan, and
    neither field is updated. *)
Lemma auxiliary_marker_alone_not_stored :
  let line := "X:45.0/36.0 C@:22.5" in
  let w' := exec (parse_and_broadcast_line line) initial_world in
  float2 (scan_at line "X:" "X:%f/%f") = Some (45%Q, 36%Q) /\
  float1 (scan_at line "C@:" "C@:%f") = Some (45 # 2)%Q /\
  heatbreak_current (current_temps w') <> 45%Q /\
  heatbreak_target (current_temps w') <> 36%Q /\
  chamber_current (current_temps w') <> (45 # 2)%Q.
Proof. vm_compute. repeat split; discriminate. Qed.

(** ** The progress blocks *)

Lemma published_take m : published [Take m] = [].
Proof. reflexivity. Qed.
Lemma published_give m : published [Give m] = [].
Proof. reflexivity. Qed.
Lemma published_nil : published [] = [].
Proof. reflexivity. Qed.
#[global] Hint Rewrite published_take published_give published_nil
  published_ws_broadcast_message : firmware.

Lemma published_broadcast_progress w :
  published (trace broadcast_progress w) =
  [build_progress_message (current_progress w)].
Proof. unfold broadcast_progress. run. reflexivity. Qed.

Lemma broadcast_progress_progress w :
  current_progress (exec broadcast_progress w) = current_progress w.
Proof. skip current_progress broadcast_progress. reflexivity. Qed.

Lemma at_state_lock_progress line w :
  current_progress (at_state_lock line w) = current_progress w.
Proof.
  unfold at_state_lock.
  skip current_progress (xSemaphoreTake printer_state_mutex).
  skip current_progress (ws_broadcast_message (build_log_message line)).
  reflexivity.
Qed.

Section ProgressSpec.
Variables (line : string) (w : world).

Lemma parse_progress_closed :
  found (strstr line "Progress:") = false \/
  int1 (sscanf line "%*[^P]Progress: %d%%") = None ->
  parse_progress line = ret tt.
Proof.
  unfold parse_progress. intros [-> | ->]; [reflexivity |].
  now destruct (found _).
Qed.

Lemma parse_minutes_absent keyword hm_format m_format set :
  strstr line keyword = None ->
  parse_minutes line keyword hm_format m_format set = ret tt.
Proof. unfold parse_minutes. now intros ->. Qed.

(** The keyword is on the line but neither form scans: the progress record
    stays as it was, and it is broadcast all the same. *)
Lemma parse_minutes_malformed keyword hm_format m_format set time_str :
  strstr line keyword = Some time_str ->
  int2 (sscanf time_str hm_format) = None ->
  int1 (sscanf time_str m_format) = None ->
  current_progress (exec (parse_minutes line keyword hm_format m_format set) w) =
    current_progress w /\
  published (trace (parse_minutes line keyword hm_format m_format set) w) =
    [build_progress_message (current_progress w)].
Proof.
  intros Hk Hhm Hm. unfold parse_minutes. rewrite Hk, Hhm, Hm.
  cbv beta iota. run.
  now rewrite broadcast_progress_progress, published_broadcast_progress.
Qed.

Lemma parse_position_closed :
  found (strstr line "X:") && found (strstr line "Y:") &&
  found (strstr line "Z:") && found (strstr line "E:") = false \/
  float4 (sscanf (terminate_at (strncpy line (SERIAL_LINE_BUFFER_SIZE - 1)) "Count")
                 "%*[^X]X:%f Y:%f Z:%f E:%f") = None ->
  parse_position line = ret tt.
Proof.
  unfold parse_position. intros [-> | H]; [reflexivity |].
  cbv zeta. rewrite H. now destruct (_ && _).
Qed.

Lemma parse_completion_closed :
  found (strstr line "Done printing file") = false ->
  parse_completion line = ret tt.
Proof. unfold parse_completion. now intros ->. Qed.

Lemma parse_completion_open :
  found (strstr line "Done printing file") = true ->
  current_progress (exec (parse_completion line) w) =
    set_time_left_mins 0 (set_percent 100 (current_progress w)) /\
  published (trace (parse_completion line) w) =
    [build_progress_message
       (set_time_left_mins 0 (set_percent 100 (current_progress w)))].
Proof.
  unfold parse_completion. intros ->. rewrite when_true. unfold update_progress. run.
  now rewrite broadcast_progress_progress, published_broadcast_progress.
Qed.
End ProgressSpec.

(** A line on which only the time-left block, or only the change block,
    finds its keyword, with a value that neither form scans. *)
Lemma malformed_minutes_line line w :
  parse_temperature line = ret tt ->
  parse_progress line = ret tt ->
  parse_position line = ret tt ->
  parse_completion line = ret tt ->
  (parse_change line = ret tt /\
   exists time_str,
     strstr line "Time left:" = Some time_str /\
     int2 (sscanf time_str "Time left: %dh %dm") = None /\
     int1 (sscanf time_str "Time left: %dm") = None) \/
  (parse_time_left line = ret tt /\
   exists change_str,
     strstr line "Change:" = Some change_str /\
     int2 (sscanf change_str "Change: %dh %dm") = None /\
     int1 (sscanf change_str "Change: %dm") = None) ->
  current_progress (exec (parse_and_broadcast_line line) w) = current_progress w /\
  published (trace (parse_and_broadcast_line line) w) =
    [build_log_message line; build_progress_message (current_progress w)].
Proof.
  intros Htemp Hprog Hpos Hdone Hmin.
  unfold parse_and_broadcast_line. rewrite Htemp, Hprog, Hpos, Hdone.
  destruct Hmin as [[Hother (str & Hk & Hhm & Hm)] | [Hother (str & Hk & Hhm & Hm)]];
    rewrite Hother; run; fold (at_state_lock line w);
    skip current_progress (xSemaphoreGive printer_state_mutex).
  - destruct (parse_minutes_malformed line (at_state_lock line w) _ _ _
                set_time_left_mins str Hk Hhm Hm) as [Hs Hp].
    unfold parse_time_left. rewrite Hs, Hp, at_state_lock_progress.
    split; reflexivity.
  - destruct (parse_minutes_malformed line (at_state_lock line w) _ _ _
                set_change_mins str Hk Hhm Hm) as [Hs Hp].
    unfold parse_change. rewrite Hs, Hp, at_state_lock_progress.
    split; reflexivity.
Qed.

(** C1, at lines on which the keyword stands in front of a value that does
    not scan. Both scans of ["Time left: abc"], and of ["Change: soon"],
    assign nothing and the progress record is left as it was, but a
    progress message is published nevertheless: in these two blocks the
    build-and-broadcast is not guarded by the result of the scan. *)
Theorem malformed_time_left_is_broadcast (w : world) :
  (let line := "Time left: abc" in
   sscanf line "Time left: %dh %dm" = [] /\
   sscanf line "Time left: %dm" = [] /\
   current_progress (exec (parse_and_broadcast_line line) w) = current_progress w /\
   published (trace (parse_and_broadcast_line line) w) =
     [build_log_message line; build_progress_message (current_progress w)]) /\
  (let line := "Change: soon" in
   sscanf line "Change: %dh %dm" = [] /\
   sscanf line "Change: %dm" = [] /\
   current_progress (exec (parse_and_broadcast_line line) w) = current_progress w /\
   published (trace (parse_and_broadcast_line line) w) =
     [build_log_message line; build_progress_message (current_progress w)]).
Proof.
  cbv zeta. split; (split; [reflexivity | split; [reflexivity |]]).
  - apply malformed_minutes_line.
    + now apply parse_temperature_closed.
    + apply parse_progress_closed. now left.
    + apply parse_position_closed. now left.
    + now apply parse_completion_closed.
    + left. split; [now apply parse_minutes_absent |].
      exists "Time left: abc". repeat split.
  - apply malformed_minutes_line.
    + now apply parse_temperature_closed.
    + apply parse_progress_closed. now left.
    + apply parse_position_closed. now left.
    + now apply parse_completion_closed.
    + right. split; [now apply parse_minutes_absent |].
      exists "Change: soon". repeat split.
Qed.

(** C7, as the code has it. On a line with the completion phrase the
    progress record ends with percent 100 and zero minutes left, and the
    last message published for the line is the progress message with that
    record. The completion block never assigns the change time: on a line
    without the ["Change:"] keyword it is the value from before the line. *)
Theorem completion_marker (line : string) (w : world) :
  found (strstr line "Done printing file") = true ->
  let w' := exec (parse_and_broadcast_line line) w in
  percent (current_progress w') = 100 /\
  time_left_mins (current_progress w') = 0 /\
  last (published (trace (parse_and_broadcast_line line) w)) =
    Some (build_progress_message (current_progress w')) /\
  (strstr line "Change:" = None ->
   change_mins (current_progress w') = change_mins (current_progress w)).
Proof.
  intros Hdone. cbv zeta. unfold parse_and_broadcast_line. run.
  fold (at_state_lock line w).
  skip current_progress (xSemaphoreGive printer_state_mutex).
  match goal with
  | |- context [exec (parse_completion line) ?W] =>
      destruct (parse_completion_open line W Hdone) as [Hs Hp]; rewrite Hs, Hp
  end.
  split; [reflexivity |]. split; [reflexivity |]. split.
  - rewrite !app_assoc. apply last_snoc.
  - intros Hch. cbn [change_mins set_time_left_mins set_percent].
    skip current_progress (parse_position line).
    rewrite (parse_minutes_absent line "Change:" _ _ _ Hch
             : parse_change line = ret tt).
    run.
    skip (fun w => change_mins (current_progress w)) (parse_time_left line).
    skip (fun w => change_mins (current_progress w)) (parse_progress line).
    skip current_progress (parse_temperature line).
    now rewrite at_state_lock_progress.
Qed.

Lemma completion_marker_witness :
  let line := "Done printing file" in
  let w' := exec (parse_and_broadcast_line line) initial_world in
  percent (current_progress w') = 100 /\
  time_left_mins (current_progress w') = 0 /\
  last (published (trace (parse_and_broadcast_line line) initial_world)) =
    Some (build_progress_message (current_progress w')) /\
  change_mins (current_progress w') = change_mins (current_progress initial_world).
Proof.
  cbv zeta.
  destruct (completion_marker "Done printing file" initial_world eq_refl)
    as (Hp & Ht & Hl & Hc).
  split; [exact Hp |]. split; [exact Ht |]. split; [exact Hl |].
  apply Hc; reflexivity.
Defined.

(** C7, as the claim has it, fails on a line that carries a change time
    next to the completion phrase: the change block of the same line has
    already stored the new change time. *)
Lemma completion_line_may_set_change_time :
  let line := "Change: 5m; Done printing file" in
  let w' := exec (parse_and_broadcast_line line) initial_world in
  found (strstr line "Done printing file") = true /\
  change_mins (current_progress initial_world) = 0 /\
  change_mins (current_progress w') = 5.
Proof. vm_compute. repeat split. Qed.

(** ** The position block *)

Lemma at_state_lock_position line w :
  current_position (at_state_lock line w) = current_position w.
Proof.
  unfold at_state_lock.
  skip current_position (xSemaphoreTake printer_state_mutex).
  skip current_position (ws_broadcast_message (build_log_message line)).
  reflexivity.
Qed.

(** A line on which the position block does nothing keeps the position and
    publishes no position message. *)
Lemma line_without_position line w :
  parse_position line = ret tt ->
  current_position (exec (parse_and_broadcast_line line) w) = current_position w /\
  events_of_type MSG_TYPE_POSITION (trace (parse_and_broadcast_line line) w) = [].
Proof.
  intros Hpos. unfold parse_and_broadcast_line. rewrite Hpos. run.
  fold (at_state_lock line w). split.
  - skip current_position (xSemaphoreGive printer_state_mutex).
    skip current_position (parse_completion line).
    skip current_position (parse_change line).
    skip current_position (parse_time_left line).
    skip current_position (parse_progress line).
    skip current_position (parse_temperature line).
    apply at_state_lock_position.
  - rewrite events_of_type_ws_broadcast_message.
    unfold xSemaphoreTake, xSemaphoreGive. run.
    rewrite (none_of_type _ _ _ _ (parse_temperature_shape line))
      by (intros ? [-> | ->]; discriminate).
    rewrite (none_of_type _ _ _ _ (parse_progress_shape line))
      by (intros ? ->; discriminate).
    rewrite (none_of_type _ _ _ _ (parse_time_left_shape line))
      by (intros ? ->; discriminate).
    rewrite (none_of_type _ _ _ _ (parse_change_shape line))
      by (intros ? ->; discriminate).
    rewrite (none_of_type _ _ _ _ (parse_completion_shape line))
      by (intros ? ->; discriminate).
    reflexivity.
Qed.

(** C3, at the line of the scenario. All four markers are on the line, but
    the format ["%*[^X]X:%f Y:%f Z:%f E:%f"] wants at least one character
    other than [X] in front of the first [X]: on a line that begins with
    ["X:"] the scan assigns nothing, the position is left as it was and the
    log message is the only one published. The same line behind one space
    gives the position of the scenario, with the text from ["Count"] on
    ignored. What holds in general is the guard: a line that lacks one of
    the four markers never changes the position. *)
Theorem position_line_starting_with_marker :
  (forall w,
      let line := "X:10.00 Y:20.00 Z:1.50 E:0.00 Count ..." in
      found (strstr line "X:") && found (strstr line "Y:") &&
      found (strstr line "Z:") && found (strstr line "E:") = true /\
      sscanf (terminate_at (strncpy line (SERIAL_LINE_BUFFER_SIZE - 1)) "Count")
             "%*[^X]X:%f Y:%f Z:%f E:%f" = [] /\
      current_position (exec (parse_and_broadcast_line line) w) = current_position w /\
      published (trace (parse_and_broadcast_line line) w) = [build_log_message line]) /\
  (let line := " X:10.00 Y:20.00 Z:1.50 E:0.00 Count X:800 Y:1600" in
   published (trace (parse_and_broadcast_line line) initial_world) =
     [build_log_message line;
      build_position_message
        {| pos_x := 10%Q; pos_y := 20%Q; pos_z := (3 # 2)%Q; pos_e := 0%Q |}]) /\
  (forall line w,
      strstr line "X:" = None \/ strstr line "Y:" = None \/
      strstr line "Z:" = None \/ strstr line "E:" = None ->
      current_position (exec (parse_and_broadcast_line line) w) = current_position w /\
      events_of_type MSG_TYPE_POSITION (trace (parse_and_broadcast_line line) w) = []).
Proof.
  split; [| split].
  - intros w line. split; [reflexivity | split; [reflexivity |]].
    assert (Hpos : parse_position line = ret tt)
      by (apply parse_position_closed; right; reflexivity).
    split; [apply (line_without_position line w Hpos) |].
    unfold parse_and_broadcast_line. rewrite Hpos.
    rewrite (parse_temperature_closed line eq_refl).
    rewrite (parse_progress_closed line (or_introl eq_refl)).
    rewrite (parse_minutes_absent line "Time left:" _ _ _ eq_refl
             : parse_time_left line = ret tt).
    rewrite (parse_minutes_absent line "Change:" _ _ _ eq_refl
             : parse_change line = ret tt).
    rewrite (parse_completion_closed line eq_refl).
    run. reflexivity.
  - vm_compute. reflexivity.
  - intros line w H. apply line_without_position, parse_position_closed. left.
    destruct H as [-> | [-> | [-> | ->]]]; cbn [found andb];
      rewrite ?andb_false_r; reflexivity.
Qed.

(** ** The trace of a whole line *)

Lemma patterns_shape line : only_broadcasts state_change (patterns line).
Proof. unfold patterns, state_change. shape. Qed.

(** The pattern blocks are what runs under the state lock. *)
Lemma trace_parse_and_broadcast_line line w :
  trace (parse_and_broadcast_line line) w =
  trace (ws_broadcast_message (build_log_message line)) w ++
  Take printer_state_mutex ::
  trace (patterns line) (at_state_lock line w) ++ [Give printer_state_mutex].
Proof.
  unfold parse_and_broadcast_line, patterns, at_state_lock.
  unfold xSemaphoreTake, xSemaphoreGive. run.
  cbn [app]. rewrite <- !app_assoc. reflexivity.
Qed.

(** * One log event for every line *)








(** * Lock order *)






Section LockRules.
Context (l : locks).




End LockRules.





















(** * The subscriber queues *)

Lemma exec_broadcast_to msg i w :
  ws_clients (exec (broadcast_to msg i) w) = alter (deliver msg) i (ws_clients w).
Proof.
  unfold broadcast_to. run.
  destruct (ws_clients w !! i) as [c|] eqn:E.
  - unfold deliver.
    destruct (active c) eqn:Ha.
    + destruct (xQueueSend _ _) as [q|] eqn:Eq; unfold store_client; run; cbn.
      * apply list_eq. intros j. destruct (decide (i = j)) as [<-|Hne].
        -- rewrite list_lookup_insert_eq by (eapply lookup_lt_Some, E).
           rewrite list_lookup_alter_eq, E. cbn. now rewrite Ha, Eq.
        -- now rewrite list_lookup_insert_ne, list_lookup_alter_ne.
      * apply list_eq. intros j. destruct (decide (i = j)) as [<-|Hne].
        -- rewrite list_lookup_alter_eq, E. cbn. now rewrite Ha, Eq.
        -- now rewrite list_lookup_alter_ne.
    + run. apply list_eq. intros j. destruct (decide (i = j)) as [<-|Hne].
      * rewrite list_lookup_alter_eq, E. cbn. now rewrite Ha.
      * now rewrite list_lookup_alter_ne.
  - run. apply list_eq. intros j. destruct (decide (i = j)) as [<-|Hne].
    + now rewrite list_lookup_alter_eq, E.
    + now rewrite list_lookup_alter_ne.
Qed.









(** * The line assembler *)

Lemma raw_lines_parse_and_broadcast_line line w :
  raw_lines (trace (parse_and_broadcast_line line) w) = [].
Proof.
  rewrite trace_parse_and_broadcast_line.
  change (Take printer_state_mutex :: ?l) with ([Take printer_state_mutex] ++ l).
  rewrite !raw_lines_app.
  rewrite (broadcasts_raw_lines _ _ (only_broadcasts_ws (fun _ => True) _ I w)).
  rewrite (broadcasts_raw_lines _ _ (patterns_shape line _)).
  reflexivity.
Qed.



Ltac rx_simpl :=
  cbn [serial_line_buffer serial_line_pos set_serial_line_pos
       set_serial_line_buffer raw_lines omap app fst snd].

Ltac skip_parse f :=
  match goal with
  | |- context [exec (parse_and_broadcast_line ?l) _] =>
      skip f (parse_and_broadcast_line l)
  end.

Section AssemblerStep.
Variables (c : ascii) (w : world).
Hypothesis Hok : rx_ok w.

Let w' := exec (handle_rx_byte c) w.

Lemma length_accumulated : length (accumulated w) = serial_line_pos w.
Proof.
  destruct Hok as [Hlen Hpos]. unfold accumulated.
  rewrite length_take. unfold SERIAL_LINE_BUFFER_SIZE in *. lia.
Qed.

(** One byte through [handle_rx] is one step of the assembler on the
    accumulated characters. *)
Lemma handle_rx_byte_assemble :
  rx_ok w' /\
  raw_lines (trace (handle_rx_byte c) w) = (assemble_byte (accumulated w) c).1 /\
  accumulated w' = (assemble_byte (accumulated w) c).2.
Proof.
  pose proof length_accumulated as Hacc.
  destruct Hok as [Hlen Hpos]. subst w'.
  unfold assemble_byte, is_terminator. rewrite Hacc.
  unfold handle_rx_byte, parse_buffer, store_byte, ESP_LOGW. run.
  destruct (Ascii.eqb c LF || Ascii.eqb c CR).
  - destruct (Nat.ltb_spec 0 (serial_line_pos w)) as [Hpos0|Hpos0].
    + run. rewrite raw_lines_parse_and_broadcast_line.
      unfold rx_ok, accumulated. rx_simpl.
      skip_parse serial_line_buffer. rx_simpl.
      rewrite length_insert, take_insert_ge by lia.
      destruct (take (serial_line_pos w) (serial_line_buffer w)) eqn:E.
      * apply (f_equal length) in E. rewrite length_take in E.
        unfold SERIAL_LINE_BUFFER_SIZE in *. cbn in E. lia.
      * repeat split; [exact Hlen | lia].
    + run. assert (serial_line_pos w = 0%nat) as H0 by lia.
      unfold accumulated. rewrite H0. cbn. repeat split; [exact Hlen | lia].
  - destruct (Nat.ltb_spec (serial_line_pos w) (SERIAL_LINE_BUFFER_SIZE - 1))
      as [Hroom|Hfull].
    + run. unfold rx_ok, accumulated. rx_simpl.
      rewrite length_insert. repeat split; [exact Hlen | lia |].
      replace (serial_line_pos w + 1)%nat with (S (serial_line_pos w)) by lia.
      erewrite take_S_r
        by (apply list_lookup_insert_eq; unfold SERIAL_LINE_BUFFER_SIZE in *; lia).
      rewrite take_insert_ge by lia. reflexivity.
    + run. rewrite raw_lines_parse_and_broadcast_line.
      assert (serial_line_pos w = (SERIAL_LINE_BUFFER_SIZE - 1)%nat) as Hp by lia.
      unfold rx_ok, accumulated. rx_simpl.
      skip_parse serial_line_buffer. rx_simpl.
      rewrite length_insert, take_insert_ge, Hp by lia.
      repeat split; [exact Hlen | lia].
Qed.
End AssemblerStep.

(** [handle_rx] on a chunk refines the assembler on the accumulated
    characters. *)
Lemma for_each_handle_rx_byte data : forall w,
  rx_ok w ->
  rx_ok (exec (for_each data handle_rx_byte) w) /\
  raw_lines (trace (for_each data handle_rx_byte) w) =
    assemble (accumulated w) data.
Proof.
  induction data as [|c data IH]; intros w Hok; cbn [for_each assemble].
  - split; [exact Hok | reflexivity].
  - destruct (handle_rx_byte_assemble c w Hok) as (Hok' & Hout & Hacc).
    destruct (IH _ Hok') as [Hok'' Hrest].
    run. rewrite Hout, Hrest, Hacc.
    destruct (assemble_byte (accumulated w) c) as [out acc'].
    split; [exact Hok'' | reflexivity].
Qed.

Lemma handle_rx_assemble data w :
  rx_ok w ->
  rx_ok (exec (handle_rx data) w) /\
  raw_lines (trace (handle_rx data) w) = assemble (accumulated w) data.
Proof.
  intros Hok. unfold handle_rx. run.
  now apply for_each_handle_rx_byte.
Qed.

Ltac size_lia :=
  unfold SERIAL_LINE_BUFFER_SIZE in *; cbn [length] in *;
  rewrite ?length_app in *; cbn [length] in *; lia.


(** Bytes that are no terminators are accumulated while there is room. *)
Lemma assemble_fill l : forall acc rest,
  Forall (fun b => is_terminator b = false) l ->
  (length acc + length l <= SERIAL_LINE_BUFFER_SIZE - 1)%nat ->
  assemble acc (l ++ rest) = assemble (acc ++ l) rest.
Proof.
  induction l as [|b l IH]; intros acc rest Hl Hlen.
  - now rewrite app_nil_r.
  - inversion Hl as [|? ? Hb Hl']; subst. cbn [app assemble length] in *.
    unfold assemble_byte. rewrite Hb.
    destruct (Nat.ltb_spec (length acc) (SERIAL_LINE_BUFFER_SIZE - 1));
      [| size_lia].
    cbn [app]. rewrite IH; [| exact Hl' | size_lia].
    now rewrite <- app_assoc.
Qed.

(** With the buffer full, a byte that is no terminator flushes the line
    and is gone. *)
Lemma assemble_overflow acc c rest :
  length acc = (SERIAL_LINE_BUFFER_SIZE - 1)%nat ->
  is_terminator c = false ->
  assemble acc (c :: rest) = acc :: assemble [] rest.
Proof.
  intros Hlen Hc. cbn [assemble]. unfold assemble_byte. rewrite Hc.
  destruct (Nat.ltb_spec (length acc) (SERIAL_LINE_BUFFER_SIZE - 1));
    [size_lia |].
  reflexivity.
Qed.


Lemma rx_ok_initial_world : rx_ok initial_world.
Proof. split; [reflexivity | cbn; lia]. Qed.


(** C10. When [SERIAL_LINE_BUFFER_SIZE - 1] bytes are accumulated and a
    further byte that is no terminator arrives, the line handed over
    consists of the accumulated bytes alone, and what follows is assembled
    as if that byte had never arrived: it is in no line. *)
Theorem overflow_byte_is_dropped (w : world) (l : list ascii) (c : ascii)
    (rest : list ascii) :
  rx_ok w ->
  serial_line_pos w = 0%nat ->
  length l = (SERIAL_LINE_BUFFER_SIZE - 1)%nat ->
  Forall (fun b => is_terminator b = false) l ->
  is_terminator c = false ->
  raw_lines (trace (handle_rx (l ++ c :: rest)) w) =
    l :: raw_lines (trace (handle_rx rest) w).
Proof.
  intros Hok Hpos Hlen Hl Hc.
  destruct (handle_rx_assemble (l ++ c :: rest) w Hok) as [_ ->].
  destruct (handle_rx_assemble rest w Hok) as [_ ->].
  assert (Hacc : accumulated w = []) by (unfold accumulated; now rewrite Hpos).
  rewrite Hacc, assemble_fill; [| exact Hl | size_lia].
  cbn [app]. now apply assemble_overflow.
Qed.

Lemma overflow_byte_is_dropped_witness :
  raw_lines (trace (handle_rx (replicate 511 "a"%char ++
                               "b"%char :: ["c"%char; LF])) initial_world) =
  replicate 511 "a"%char ::
  raw_lines (trace (handle_rx ["c"%char; LF]) initial_world).
Proof.
  apply (overflow_byte_is_dropped initial_world (replicate 511 "a"%char)
           "b"%char ["c"%char; LF]).
  - split; [reflexivity | cbn; lia].
  - reflexivity.
  - reflexivity.
  - apply Forall_replicate. reflexivity.
  - reflexivity.
Defined.

(** ** From the assembler to the parser *)





(** * The scenarios of the specification, run on the model *)

Example scenario_temperature :
  published (trace (parse_and_broadcast_line "T:210.0/210.0 B:60.0/60.0")
                   initial_world) =
  [build_log_message "T:210.0/210.0 B:60.0/60.0";
   build_temperature_message
     {| nozzle_current := 210%Q; nozzle_target := 210%Q;
        bed_current := 60%Q; bed_target := 60%Q;
        heatbreak_current := 0%Q; heatbreak_target := 0%Q;
        chamber_current := 0%Q |}].
Proof. vm_compute. reflexivity. Qed.

(** One line with three progress facts gives three progress messages, each
    with the record as it stands after its block. *)
Example scenario_progress :
  events_of_type MSG_TYPE_PROGRESS
    (trace (parse_and_broadcast_line
              "M73 Progress: 42%; Time left: 1h 5m; Change: 16m;")
           initial_world) =
  [build_progress_message {| percent := 42; time_left_mins := 0; change_mins := 0 |};
   build_progress_message {| percent := 42; time_left_mins := 65; change_mins := 0 |};
   build_progress_message {| percent := 42; time_left_mins := 65; change_mins := 16 |}].
Proof. vm_compute. reflexivity. Qed.

Example scenario_completion :
  published (trace (parse_and_broadcast_line "Done printing file") initial_world) =
  [build_log_message "Done printing file";
   build_progress_message {| percent := 100; time_left_mins := 0; change_mins := 0 |}].
Proof. vm_compute. reflexivity. Qed.

(** A full temperature report of the printer: temperature and power. *)
Example scenario_temperature_report :
  published
    (trace (parse_and_broadcast_line
              " T:210.0/210.0 B:60.0/60.0 X:45.0/36.0 A:35.0/0.0 @:50 B@:30 C@:36.5 HBR@:255")
           initial_world) =
  [build_log_message
     " T:210.0/210.0 B:60.0/60.0 X:45.0/36.0 A:35.0/0.0 @:50 B@:30 C@:36.5 HBR@:255";
   build_temperature_message
     {| nozzle_current := 210%Q; nozzle_target := 210%Q;
        bed_current := 60%Q; bed_target := 60%Q;
        heatbreak_current := 45%Q; heatbreak_target := 36%Q;
        chamber_current := (73 # 2)%Q |};
   build_power_message {| nozzle_pwm := 50; bed_pwm := 30; heatbreak_pwm := 255 |}].
Proof. vm_compute. reflexivity. Qed.

(** Two chunks that split a line between them: the line is handed over
    once its terminator arrives. *)
Example scenario_chunks :
  let w1 := exec (handle_rx (list_ascii_of_string "Done prin")) initial_world in
  raw_lines (trace (handle_rx (list_ascii_of_string "Done prin")) initial_world) = [] /\
  raw_lines (trace (handle_rx (list_ascii_of_string "ting file" ++ [CR; LF])) w1) =
    [list_ascii_of_string "Done printing file"].
Proof. vm_compute. split; reflexivity. Qed.

(** * The subscriber registry *)




Lemma ws_client_remove_from_absent fd0 count : forall i0 w,
  (forall j c, (i0 <= j < i0 + count)%nat -> ws_clients w !! j = Some c ->
               active c && (fd c =? fd0) = false) ->
  exec (ws_client_remove_from fd0 i0 count) w = w.
Proof.
  induction count as [|n IH]; intros i0 w Hall; cbn [ws_client_remove_from].
  - run. reflexivity.
  - run. destruct (ws_clients w !! i0) as [c0|] eqn:E0.
    + rewrite (Hall i0 c0) by (first [lia | exact E0]).
      apply IH. intros j c Hj. apply Hall. lia.
    + apply IH. intros j c Hj. apply Hall. lia.
Qed.









(** X4. [ws_client_remove] of a descriptor that no active slot holds
    changes nothing; a stale descriptor left in an inactive slot does not
    count. *)
Theorem ws_client_remove_unknown (fd0 : Z) (w : world) :
  (forall j c, (j < WS_MAX_CLIENTS)%nat -> ws_clients w !! j = Some c ->
               active c && (fd c =? fd0) = false) ->
  exec (ws_client_remove fd0) w = w.
Proof.
  intros Hall. unfold ws_client_remove, xSemaphoreTake, xSemaphoreGive. run.
  apply ws_client_remove_from_absent. intros j c Hj. apply Hall. lia.
Qed.

Lemma ws_client_remove_unknown_witness :
  exec (ws_client_remove 9) full_world = full_world.
Proof.
  apply (ws_client_remove_unknown 9 full_world).
  intros [|[|[|[|j]]]] c Hj Hc; vm_compute in Hc, Hj; try lia;
    inversion Hc; reflexivity.
Defined.







(** * Invariants of the registry *)

Section KeepsRules.
Context (I : world -> Prop).

Lemma keeps_ret {A} (a : A) : keeps I (ret a).
Proof. intros w H. exact H. Qed.

Lemma keeps_gets {A} (g : world -> A) : keeps I (gets g).
Proof. intros w H. exact H. Qed.

Lemma keeps_emit e : keeps I (emit e).
Proof. intros w H. exact H. Qed.

Lemma keeps_modify g : (forall w, I w -> I (g w)) -> keeps I (modify g).
Proof. intros H w. apply H. Qed.

Lemma keeps_bind {A B} (m : M A) (k : A -> M B) :
  keeps I m -> (forall a, keeps I (k a)) -> keeps I (bind m k).
Proof. intros Hm Hk w H. rewrite exec_bind. apply Hk, Hm, H. Qed.

Lemma keeps_when b m : keeps I m -> keeps I (when b m).
Proof. destruct b; [trivial | intros _; apply keeps_ret]. Qed.

Lemma keeps_for_loop body start count :
  (forall i, keeps I (body i)) -> keeps I (for_loop start count body).
Proof.
  intros H. revert start.
  induction count as [|n IH]; intros start; simpl.
  - apply keeps_ret.
  - apply keeps_bind; auto.
Qed.

Lemma keeps_for_each {A} (l : list A) body :
  (forall a, keeps I (body a)) -> keeps I (for_each l body).
Proof.
  intros H. induction l as [|a l IH]; simpl.
  - apply keeps_ret.
  - apply keeps_bind; auto.
Qed.
End KeepsRules.

(** A slot may be overwritten by a client whose queue is within its
    bound. *)
Lemma registry_ok_store i c :
  (length (message_queue c) <= WS_MESSAGE_QUEUE_SIZE)%nat ->
  keeps registry_ok (store_client i c).
Proof.
  intros Hc w [Hlen Hall]. unfold store_client. run.
  split; cbn [ws_clients set_ws_clients].
  - now rewrite length_insert.
  - now apply Forall_insert.
Qed.

Lemma xQueueSend_bound queue item queue' :
  xQueueSend queue item = Some queue' ->
  (length queue' <= WS_MESSAGE_QUEUE_SIZE)%nat.
Proof.
  unfold xQueueSend.
  destruct (Nat.ltb_spec (length queue) WS_MESSAGE_QUEUE_SIZE); [| discriminate].
  intros [= <-]. rewrite length_app. cbn. lia.
Qed.

Lemma registry_ok_slot w i c :
  registry_ok w -> ws_clients w !! i = Some c ->
  (length (message_queue c) <= WS_MESSAGE_QUEUE_SIZE)%nat.
Proof.
  intros [_ Hall] Hc. rewrite Forall_lookup in Hall. exact (Hall i c Hc).
Qed.

Lemma registry_ok_broadcast_to msg i : keeps registry_ok (broadcast_to msg i).
Proof.
  intros w Hok. unfold broadcast_to. run.
  destruct (ws_clients w !! i) as [c|] eqn:E; [| exact Hok].
  destruct (active c); [| exact Hok].
  destruct (xQueueSend _ _) as [q|] eqn:Eq; [| exact Hok].
  apply registry_ok_store; [| exact Hok].
  exact (xQueueSend_bound _ _ _ Eq).
Qed.

Lemma registry_ok_ws_broadcast_message msg :
  keeps registry_ok (ws_broadcast_message msg).
Proof.
  unfold ws_broadcast_message, xSemaphoreTake, xSemaphoreGive.
  apply keeps_bind; [apply keeps_emit | intros _].
  apply keeps_bind; [apply keeps_emit | intros _].
  apply keeps_bind; [| intros _; apply keeps_emit].
  apply keeps_for_loop. intros i. apply registry_ok_broadcast_to.
Qed.

Lemma registry_ok_send_from send_ok i : keeps registry_ok (send_from send_ok i).
Proof.
  intros w Hok. unfold send_from. run.
  destruct (ws_clients w !! i) as [c|] eqn:E; [| exact Hok].
  destruct (active c); [| exact Hok].
  pose proof (registry_ok_slot w i c Hok E) as Hq.
  destruct (message_queue c) as [|msg q]; [exact Hok |].
  cbn [xQueueReceive]. unfold ESP_LOGW. run.
  assert (Hgoal : registry_ok
            (exec (store_client i {| fd := fd c; active := true; message_queue := q |}) w)).
  { apply registry_ok_store; [cbn in *; lia | exact Hok]. }
  destruct (send_ok (fd c) msg); run; exact Hgoal.
Qed.

Lemma registry_ok_seed i msg : keeps registry_ok (seed i msg).
Proof.
  intros w Hok. unfold seed. run.
  destruct (ws_clients w !! i) as [c|] eqn:E; [| exact Hok].
  destruct (xQueueSend _ _) as [q|] eqn:Eq; [| exact Hok].
  apply registry_ok_store; [| exact Hok].
  exact (xQueueSend_bound _ _ _ Eq).
Qed.

Lemma registry_ok_add_from fd0 count : forall i,
  keeps registry_ok (ws_client_add_from fd0 i count).
Proof.
  induction count as [|n IH]; intros i; cbn [ws_client_add_from].
  - unfold xSemaphoreGive, ESP_LOGW.
    repeat (apply keeps_bind; [apply keeps_emit | intros _]). apply keeps_ret.
  - apply keeps_bind; [apply keeps_gets | intros [c|]]; [| apply IH].
    destruct (negb (active c)); [| apply IH].
    unfold xSemaphoreGive, ESP_LOGI.
    apply keeps_bind; [apply registry_ok_store; cbn; lia | intros _].
    repeat (apply keeps_bind; [apply keeps_emit | intros _]). apply keeps_ret.
Qed.

Lemma registry_ok_remove_from fd0 count : forall i,
  keeps registry_ok (ws_client_remove_from fd0 i count).
Proof.
  induction count as [|n IH]; intros i; cbn [ws_client_remove_from].
  - apply keeps_ret.
  - apply keeps_bind; [apply keeps_gets | intros [c|]]; [| apply IH].
    destruct (active c && (fd c =? fd0)); [| apply IH].
    unfold ESP_LOGI.
    apply keeps_bind; [apply registry_ok_store; cbn; lia | intros _].
    apply keeps_emit.
Qed.

Ltac keep_step :=
  first
    [ apply keeps_ret
    | apply keeps_gets
    | apply keeps_emit
    | apply keeps_when
    | apply registry_ok_ws_broadcast_message
    | apply registry_ok_seed
    | apply keeps_modify; intros ? ?; assumption
    | apply keeps_bind; [| intros ?]
    | progress cbv zeta
    | case_scrutinee ].

(** Proves [keeps registry_ok m] for code that reaches the registry
    through the broadcaster only. *)
Ltac keep := unfold_parser; repeat keep_step.

Lemma registry_ok_parse_and_broadcast_line line :
  keeps registry_ok (parse_and_broadcast_line line).
Proof. unfold parse_and_broadcast_line. keep. Qed.

Lemma registry_ok_handle_rx data : keeps registry_ok (handle_rx data).
Proof.
  unfold handle_rx. apply keeps_bind; [| intros _; apply keeps_ret].
  apply keeps_for_each. intros c.
  assert (Hline : forall len, keeps registry_ok (parse_buffer len)).
  { intros len. unfold parse_buffer.
    apply keeps_bind; [apply keeps_gets | intros buf].
    apply keeps_bind; [apply keeps_emit | intros _].
    apply registry_ok_parse_and_broadcast_line. }
  assert (Hstore : forall i b, keeps registry_ok (store_byte i b)).
  { intros i b. apply keeps_modify. intros w H. exact H. }
  assert (Hpos : forall n, keeps registry_ok (modify (set_serial_line_pos n))).
  { intros n. apply keeps_modify. intros w H. exact H. }
  unfold handle_rx_byte, ESP_LOGW.
  apply keeps_bind; [apply keeps_gets | intros pos].
  destruct (Ascii.eqb c LF || Ascii.eqb c CR).
  - destruct (Nat.ltb 0 pos); [| apply keeps_ret].
    apply keeps_bind; [apply Hstore | intros _].
    apply keeps_bind; [apply Hline | intros _; apply Hpos].
  - destruct (Nat.ltb pos (SERIAL_LINE_BUFFER_SIZE - 1)).
    + apply keeps_bind; [apply Hstore | intros _; apply Hpos].
    + apply keeps_bind; [apply Hstore | intros _].
      apply keeps_bind; [apply keeps_emit | intros _].
      apply keeps_bind; [apply Hline | intros _; apply Hpos].
Qed.

Lemma registry_ok_initial_world : registry_ok initial_world.
Proof.
  split; [reflexivity |]. apply Forall_replicate. cbn. lia.
Qed.

(** X7. Whatever the tasks and callbacks do, in whatever order, the
    registry keeps its [WS_MAX_CLIENTS] slots and no queue ever holds more
    than [WS_MESSAGE_QUEUE_SIZE] messages: the bound holds at process
    start and every operation of the core keeps it. *)
Theorem registry_stays_bounded (ops : list operation) :
  registry_ok (exec (for_each ops perform) initial_world).
Proof.
  apply keeps_for_each; [| exact registry_ok_initial_world].
  intros [data|line|msg|connected|fd0|fd0|send_ok]; cbn [perform].
  - apply keeps_bind; [apply registry_ok_handle_rx | intros _; apply keeps_ret].
  - apply registry_ok_parse_and_broadcast_line.
  - apply registry_ok_ws_broadcast_message.
  - unfold link_changed. keep.
  - unfold ws_handler_connect, ws_client_add, xSemaphoreTake.
    apply keeps_bind.
    + apply keeps_bind; [apply keeps_emit | intros _; apply registry_ok_add_from].
    + intros client_id. keep.
  - unfold ws_client_remove, xSemaphoreTake, xSemaphoreGive.
    apply keeps_bind; [apply keeps_emit | intros _].
    apply keeps_bind; [apply registry_ok_remove_from | intros _; apply keeps_emit].
  - unfold ws_sender_pass, xSemaphoreTake, xSemaphoreGive.
    apply keeps_bind; [apply keeps_emit | intros _].
    apply keeps_bind; [| intros _; apply keeps_emit].
    apply keeps_for_loop. intros i. apply registry_ok_send_from.
Qed.

(** * One broadcast, one sender pass *)



Lemma frames_app e1 e2 : frames (e1 ++ e2) = frames e1 ++ frames e2.
Proof. apply omap_app. Qed.

Lemma frames_to_app fd0 e1 e2 :
  frames_to fd0 (e1 ++ e2) = frames_to fd0 e1 ++ frames_to fd0 e2.
Proof. apply omap_app. Qed.

#[global] Hint Rewrite frames_app frames_to_app : firmware.











(** * From publication to the wire *)












(** * The handshake and the link *)











(** * The parser and the subscribers' view *)

Section Announced.
Context {S : Type} (t : message_type_t) (state : world -> S)
        (build : S -> ws_message_t).
Hypothesis build_type : forall s, type (build s) = t.
Hypothesis state_registry : forall v w, state (set_ws_clients v w) = state w.

Lemma announced_silent {A} (m : M A) :
  preserves state m -> (forall w, events_of_type t (trace m w) = []) ->
  announced t state build m.
Proof. intros Hs He w. rewrite He. cbn. apply Hs. Qed.

Lemma announced_ret {A} (a : A) : announced t state build (ret a).
Proof. intros w. reflexivity. Qed.

Lemma announced_bind {A B} (m : M A) (k : A -> M B) :
  announced t state build m -> (forall a, announced t state build (k a)) ->
  announced t state build (bind m k).
Proof.
  intros Hm Hk w. rewrite trace_bind, exec_bind, events_of_type_app, last_app.
  specialize (Hk (returns m w) (exec m w)). specialize (Hm w).
  destruct (last (events_of_type t (trace (k _) _))) as [msg|]; [exact Hk |].
  destruct (last (events_of_type t (trace m w))) as [msg|]; congruence.
Qed.

Lemma announced_when b m :
  announced t state build m -> announced t state build (when b m).
Proof. destruct b; [trivial | intros _; apply announced_ret]. Qed.

Lemma announces_announced {A} (m : M A) :
  announces t state build m -> announced t state build m.
Proof. intros H w. now rewrite H. Qed.

(** [build_..._message(&msg, &current_...); ws_broadcast_message(&msg);] *)
Lemma announces_broadcast :
  announces t state build
    (bind (gets (fun w => build (state w))) (fun msg => ws_broadcast_message msg)).
Proof.
  intros w. run. rewrite events_of_type_ws_broadcast_message.
  destruct (decide _) as [_|H]; [| now contradiction H].
  cbn. f_equal. f_equal. symmetry.
  apply (ws_broadcast_preserves state). exact state_registry.
Qed.

(** What runs in front of the broadcast does not matter. *)
Lemma announces_bind {A B} (m : M A) (k : A -> M B) :
  (forall a, announces t state build (k a)) -> announces t state build (bind m k).
Proof.
  intros Hk w. rewrite trace_bind, exec_bind, events_of_type_app, last_app.
  now rewrite Hk.
Qed.

Lemma announces_ret_bind {A B} (a : A) (k : A -> M B) :
  announces t state build (k a) -> announces t state build (bind (ret a) k).
Proof. intros H w. run. apply H. Qed.

Lemma announces_assoc {A B C} (m : M A) (f : A -> M B) (k : B -> M C) :
  announces t state build (bind m (fun a => bind (f a) k)) ->
  announces t state build (bind (bind m f) k).
Proof.
  intros H w. specialize (H w). autorewrite with firmware in H.
  run. rewrite <- app_assoc. exact H.
Qed.

Lemma announced_ret_bind {A B} (a : A) (k : A -> M B) :
  announced t state build (k a) -> announced t state build (bind (ret a) k).
Proof. intros H w. run. apply H. Qed.

(** Code that publishes nothing and does not assign the state. *)
Lemma announced_quiet {A} (m : M A) :
  preserves state m -> only_broadcasts (fun msg => type msg <> t) m ->
  announced t state build m.
Proof.
  intros Hs Hm. apply announced_silent; [exact Hs |].
  intros w. apply (none_of_type _ _ _ _ Hm). auto.
Qed.
End Announced.

Ltac announce_step t state build :=
  first
    [ apply (announces_ret_bind t state build)
    | apply (announces_assoc t state build)
    | apply (announces_broadcast t state build); intros; reflexivity
    | apply (announces_bind t state build); intros ?
    | progress cbn [when orb andb] ].

(** Proves [announces] for a run that ends in the broadcast of the
    state. *)
Ltac announce t state build :=
  unfold_parser; repeat announce_step t state build.

Ltac quiet_block :=
  first
    [ solve [apply announced_quiet; [frame | shape; discriminate]]
    | solve [apply announced_silent; [frame | intros ?; reflexivity]] ].

Section AnnouncedLine.
Variable line : string.

Lemma progress_announced :
  announced MSG_TYPE_PROGRESS current_progress build_progress_message
            (parse_and_broadcast_line line).
Proof.
  unfold parse_and_broadcast_line.
  apply announced_bind; [quiet_block | intros _].
  apply announced_bind; [quiet_block | intros _].
  apply announced_bind; [quiet_block | intros _].
  apply announced_bind; [| intros _].
  { unfold parse_progress. apply announced_when.
    destruct (int1 _) as [v|]; [| apply announced_ret].
    apply announces_announced.
    announce MSG_TYPE_PROGRESS current_progress build_progress_message. }
  apply announced_bind; [| intros _].
  { unfold parse_time_left, parse_minutes.
    destruct (strstr line _); [| apply announced_ret].
    apply announces_announced.
    announce MSG_TYPE_PROGRESS current_progress build_progress_message. }
  apply announced_bind; [| intros _].
  { unfold parse_change, parse_minutes.
    destruct (strstr line _); [| apply announced_ret].
    apply announces_announced.
    announce MSG_TYPE_PROGRESS current_progress build_progress_message. }
  apply announced_bind; [quiet_block | intros _].
  apply announced_bind; [| intros _; quiet_block].
  unfold parse_completion. apply announced_when.
  apply announces_announced.
  announce MSG_TYPE_PROGRESS current_progress build_progress_message.
Qed.

Lemma position_announced :
  announced MSG_TYPE_POSITION current_position build_position_message
            (parse_and_broadcast_line line).
Proof.
  unfold parse_and_broadcast_line.
  repeat (apply announced_bind; [quiet_block | intros _]).
  apply announced_bind; [| intros _].
  { unfold parse_position. apply announced_when. cbv zeta.
    destruct (float4 _) as [[[[x y] z] e]|]; [| apply announced_ret].
    apply announces_announced.
    announce MSG_TYPE_POSITION current_position build_position_message. }
  repeat (apply announced_bind; [quiet_block | intros _]).
  quiet_block.
Qed.

Lemma parse_power_announced :
  announced MSG_TYPE_POWER current_power build_power_message (parse_power line).
Proof.
  unfold parse_power, parse_pwm.
  destruct (int1 (scan_at line "@:" _)) as [n|];
    destruct (int1 (scan_at line "B@:" _)) as [b|];
    destruct (int1 (scan_at line "HBR@:" _)) as [h|];
    first
      [ solve [repeat apply announced_ret_bind; apply announced_ret]
      | apply announces_announced;
        announce MSG_TYPE_POWER current_power build_power_message ].
Qed.

Lemma power_announced :
  announced MSG_TYPE_POWER current_power build_power_message
            (parse_and_broadcast_line line).
Proof.
  unfold parse_and_broadcast_line.
  apply announced_bind; [quiet_block | intros _].
  apply announced_bind; [quiet_block | intros _].
  apply announced_bind; [| intros _].
  { unfold parse_temperature. apply announced_when.
    apply announced_bind; [quiet_block | intros changed].
    apply announced_bind; [quiet_block | intros _].
    apply announced_bind; [quiet_block | intros _].
    apply announced_bind; [quiet_block | intros _].
    apply parse_power_announced. }
  repeat (apply announced_bind; [quiet_block | intros _]).
  quiet_block.
Qed.

Lemma temperature_reported w msg :
  last (events_of_type MSG_TYPE_TEMPERATURE
          (trace (parse_and_broadcast_line line) w)) = Some msg ->
  msg = build_temperature_message
          (current_temps (exec (parse_and_broadcast_line line) w)).
Proof.
  rewrite line_temperature_events, line_temps.
  destruct (float2 (scan_at line "T:" "T:%f/%f")) as [[nc nt]|] eqn:HT.
  - destruct (float2 (scan_at line "B:" "B:%f/%f")) as [[bc bt]|] eqn:HB.
    + destruct (parse_temperature_success line (at_state_lock line w)
                  nc nt bc bt HT HB) as [_ ->].
      now intros [= <-].
    + destruct (parse_temperature_failure line (at_state_lock line w))
        as [_ ->]; [now right | discriminate].
  - destruct (parse_temperature_failure line (at_state_lock line w))
      as [_ ->]; [now left | discriminate].
Qed.
End AnnouncedLine.

(** X14. The view of a subscriber follows the state. Of the progress, the
    position and the power record, a line that changes one also publishes
    it, and the last message of that type published for the line shows
    the record as it is once the line is parsed: a subscriber that applies
    the messages in order holds the records of the firmware. For the
    temperatures the second half holds: the last temperature message of a
    line shows the temperatures after the line. *)
Theorem subscriber_view_follows_state (line : string) :
  announced MSG_TYPE_PROGRESS current_progress build_progress_message
            (parse_and_broadcast_line line) /\
  announced MSG_TYPE_POSITION current_position build_position_message
            (parse_and_broadcast_line line) /\
  announced MSG_TYPE_POWER current_power build_power_message
            (parse_and_broadcast_line line) /\
  (forall w msg,
      last (events_of_type MSG_TYPE_TEMPERATURE
              (trace (parse_and_broadcast_line line) w)) = Some msg ->
      msg = build_temperature_message
              (current_temps (exec (parse_and_broadcast_line line) w))).
Proof.
  split; [apply progress_announced | split; [apply position_announced |]].
  split; [apply power_announced | apply temperature_reported].
Qed.

(** A line that carries none of the markers. *)
Lemma unmarked_line line w :
  strstr line "T:" = None \/ strstr line "B:" = None ->
  strstr line "Progress:" = None ->
  strstr line "Time left:" = None ->
  strstr line "Change:" = None ->
  strstr line "X:" = None \/ strstr line "Y:" = None \/
    strstr line "Z:" = None \/ strstr line "E:" = None ->
  strstr line "Done printing file" = None ->
  without_registry (exec (parse_and_broadcast_line line) w) = without_registry w /\
  published (trace (parse_and_broadcast_line line) w) = [build_log_message line].
Proof.
  intros HT HP HL HC HX HD. unfold parse_and_broadcast_line.
  rewrite (parse_temperature_closed _ (gate_closed_of_absent _ HT)).
  rewrite (parse_progress_closed line) by (left; now rewrite HP).
  unfold parse_time_left, parse_change.
  rewrite !(parse_minutes_absent line) by assumption.
  rewrite (parse_position_closed line).
  2: { left. destruct HX as [-> | [-> | [-> | ->]]]; cbn;
         rewrite ?andb_false_r; reflexivity. }
  rewrite (parse_completion_closed line) by now rewrite HD.
  unfold xSemaphoreTake, xSemaphoreGive. run. split; [| reflexivity].
  apply (ws_broadcast_preserves without_registry). reflexivity.
Qed.

(** X15. A line without any of the markers of the parser is logged and
    nothing else: the one message published is its log message, and the
    printer state and the line assembler stay as they were. *)
Theorem unmarked_line_is_only_logged (line : string) (w : world) :
  strstr line "T:" = None \/ strstr line "B:" = None ->
  strstr line "Progress:" = None ->
  strstr line "Time left:" = None ->
  strstr line "Change:" = None ->
  strstr line "X:" = None \/ strstr line "Y:" = None \/
    strstr line "Z:" = None \/ strstr line "E:" = None ->
  strstr line "Done printing file" = None ->
  without_registry (exec (parse_and_broadcast_line line) w) = without_registry w /\
  published (trace (parse_and_broadcast_line line) w) = [build_log_message line].
Proof. exact (unmarked_line line w). Qed.

Lemma unmarked_line_is_only_logged_witness :
  without_registry
    (exec (parse_and_broadcast_line "echo:busy: processing") one_client_world) =
    without_registry one_client_world /\
  published (trace (parse_and_broadcast_line "echo:busy: processing")
                   one_client_world) =
    [build_log_message "echo:busy: processing"].
Proof.
  apply (unmarked_line_is_only_logged "echo:busy: processing" one_client_world);
    first [reflexivity | left; reflexivity].
Defined.

(** X16. The position format, ["%*[^X]X:%f Y:%f Z:%f E:%f"], wants a
    character other than [X] in front of the first [X]: a line whose
    first character is [X], whatever follows, never changes the position
    and never publishes one. The report of the printer,
    ["X:108.67 Y:90.41 Z:2.20 E:0.00 Count ..."], is such a line. *)
Theorem line_starting_with_X_gives_no_position (rest : string) (w : world) :
  let line := String "X" rest in
  current_position (exec (parse_and_broadcast_line line) w) = current_position w /\
  events_of_type MSG_TYPE_POSITION (trace (parse_and_broadcast_line line) w) = [].
Proof.
  cbv zeta. apply line_without_position, parse_position_closed. right.
  destruct rest as [|c rest']; reflexivity.
Qed.

(** X17. In the same way the progress format, ["%*[^P]Progress: %d%%"],
    wants a character other than [P] in front of the first [P]: a line
    whose first character is [P] never sets the percentage, unless it
    carries the completion phrase. *)
Theorem line_starting_with_P_gives_no_percentage (rest : string) (w : world) :
  let line := String "P" rest in
  strstr line "Done printing file" = None ->
  percent (current_progress (exec (parse_and_broadcast_line line) w)) =
  percent (current_progress w).
Proof.
  cbv zeta. intros HD. unfold parse_and_broadcast_line.
  rewrite (parse_progress_closed (String "P" rest)) by (right; reflexivity).
  rewrite (parse_completion_closed (String "P" rest)) by now rewrite HD.
  set (f := fun w => percent (current_progress w)).
  change (f (exec
    (ws_broadcast_message (build_log_message (String "P" rest));;
     xSemaphoreTake printer_state_mutex;;
     parse_temperature (String "P" rest);;
     ret tt;;
     parse_time_left (String "P" rest);;
     parse_change (String "P" rest);;
     parse_position (String "P" rest);;
     ret tt;; xSemaphoreGive printer_state_mutex) w) = f w).
  assert (H : preserves f
    (ws_broadcast_message (build_log_message (String "P" rest));;
     xSemaphoreTake printer_state_mutex;;
     parse_temperature (String "P" rest);;
     ret tt;;
     parse_time_left (String "P" rest);;
     parse_change (String "P" rest);;
     parse_position (String "P" rest);;
     ret tt;; xSemaphoreGive printer_state_mutex)) by (subst f; frame).
  apply H.
Qed.

Lemma line_starting_with_P_gives_no_percentage_witness :
  percent (current_progress
             (exec (parse_and_broadcast_line "Progress: 42%; Time left: 1h 5m;")
                   initial_world)) = 0.
Proof.
  apply (line_starting_with_P_gives_no_percentage
           "rogress: 42%; Time left: 1h 5m;" initial_world).
  reflexivity.
Defined.

(** * The registry does not reach the telemetry *)

Section Oblivious.








End Oblivious.






(** * Lines in, lines out *)

Lemma for_each_app {A} (l1 l2 : list A) body w :
  exec (for_each (l1 ++ l2) body) w = exec (for_each l2 body) (exec (for_each l1 body) w) /\
  trace (for_each (l1 ++ l2) body) w =
    trace (for_each l1 body) w ++ trace (for_each l2 body) (exec (for_each l1 body) w).
Proof.
  revert w. induction l1 as [|a l1 IH]; intros w; cbn [app for_each].
  - run. split; reflexivity.
  - run. destruct (IH (exec (body a) w)) as [-> ->].
    split; [reflexivity | now rewrite app_assoc].
Qed.

(** X19. How the driver cuts the stream into chunks makes no difference:
    one call of [handle_rx] with two chunks joined does what two calls
    with the chunks do, in state, in the lines handed to the parser and in
    the messages published. A line may be split anywhere. *)
Theorem chunking_makes_no_difference (d1 d2 : list ascii) (w : world) :
  let w1 := exec (handle_rx d1) w in
  exec (handle_rx (d1 ++ d2)) w = exec (handle_rx d2) w1 /\
  raw_lines (trace (handle_rx (d1 ++ d2)) w) =
    raw_lines (trace (handle_rx d1) w) ++ raw_lines (trace (handle_rx d2) w1) /\
  published (trace (handle_rx (d1 ++ d2)) w) =
    published (trace (handle_rx d1) w) ++ published (trace (handle_rx d2) w1).
Proof.
  cbv zeta. unfold handle_rx. run.
  destruct (for_each_app d1 d2 handle_rx_byte w) as [-> ->].
  run. repeat split.
Qed.












(** * The log sink *)

Lemma strip_newline_length s : (String.length (strip_newline s) <= String.length s)%nat.
Proof.
  induction s as [|c s IH]; [reflexivity |].
  destruct s as [|c' s'].
  - cbn. destruct (Ascii.eqb c LF); cbn; lia.
  - change (strip_newline (String c (String c' s')))
      with (String c (strip_newline (String c' s'))).
    cbn [String.length] in *. lia.
Qed.

Lemma strncpy_short s : forall n,
  (String.length s <= n)%nat -> strncpy s n = s.
Proof.
  induction s as [|c s IH]; intros n Hn; [now destruct n |].
  destruct n as [|n]; [cbn in Hn; lia |].
  cbn in *. rewrite IH by lia. reflexivity.
Qed.

Lemma ws_log_vprintf_spec text w :
  (0 < String.length text < 256)%nat ->
  trace (ws_log_vprintf text) w =
    trace (ws_broadcast_message
             (build_log_message ("[ESP] " ++ strip_newline text)%string)) w /\
  exec (ws_log_vprintf text) w =
    exec (ws_broadcast_message
            (build_log_message ("[ESP] " ++ strip_newline text)%string)) w.
Proof.
  intros [Hpos Hlen]. unfold ws_log_vprintf. cbv zeta.
  destruct (Nat.ltb_spec 0 (String.length text)); [| lia].
  destruct (Nat.ltb_spec (String.length text) 256); [| lia].
  cbn [andb]. unfold snprintf. rewrite strncpy_short.
  - run. split; reflexivity.
  - pose proof (strip_newline_length text).
    change (String.length ("[ESP] " ++ strip_newline text)%string)
      with (6 + String.length (strip_newline text))%nat.
    lia.
Qed.

(** X22. The log sink. A log text of 1 to 255 characters is published to
    the subscribers as one log message: the text without its final
    newline, behind the prefix ["[ESP] "], never cut by the two buffers on
    its way to [build_log_message]. An empty text and a text of 256
    characters or more are printed on the UART and published to nobody.
    Either way the sink returns the length of the text and leaves the
    printer state and the line assembler alone. *)
Theorem log_sink_publishes_short_texts (text : string) (w : world) :
  let len := String.length text in
  published (trace (ws_log_vprintf text) w) =
    (if Nat.ltb 0 len && Nat.ltb len 256
     then [build_log_message ("[ESP] " ++ strip_newline text)%string]
     else []) /\
  returns (ws_log_vprintf text) w = (text, Z.of_nat len) /\
  without_registry (exec (ws_log_vprintf text) w) = without_registry w.
Proof.
  cbv zeta.
  destruct (Nat.ltb 0 (String.length text) && Nat.ltb (String.length text) 256)
    eqn:E.
  - apply andb_true_iff in E as [H0 H1].
    apply Nat.ltb_lt in H0, H1.
    destruct (ws_log_vprintf_spec text w (conj H0 H1)) as [-> ->].
    split; [apply published_ws_broadcast_message |].
    split.
    + unfold ws_log_vprintf. cbv zeta. run. reflexivity.
    + apply (ws_broadcast_preserves without_registry). reflexivity.
  - unfold ws_log_vprintf. cbv zeta. rewrite E. run. repeat split.
Qed.

(** X23. The sink and the registry lock. The sink publishes through
    [ws_broadcast_message], which takes [ws_clients_mutex]: run by a task
    that holds that mutex, the first mutex operation of the sink asks for
    the mutex the task holds, and the trace of the sink does not keep the
    lock order. Run with the registry lock free it does, and ends with
    the locks as they were. *)
Theorem log_sink_takes_the_registry_lock (text : string) (w : world) (l : locks) :
  (0 < String.length text < 256)%nat ->
  lock_order l (trace (ws_log_vprintf text) w) =
    if clients_held l then None else Some l.
Proof.
  intros Hlen. destruct (ws_log_vprintf_spec text w Hlen) as [-> _].
  destruct (trace_ws_broadcast_message
              (build_log_message ("[ESP] " ++ strip_newline text)%string) w)
    as (ws & Hws & ->).
  cbn [lock_order permitted].
  destruct l as [s c]. cbn [clients_held]. destruct c; [reflexivity |].
  cbn [negb held_after state_held clients_held].
  clear Hlen. induction Hws as [|e ws [i ->] _ IH]; [reflexivity |].
  cbn [app lock_order permitted held_after]. exact IH.
Qed.

Lemma log_sink_takes_the_registry_lock_witness :
  lock_order {| state_held := false; clients_held := true |}
    (trace (ws_log_vprintf "I (1234) PRUSA: WebSocket client 0 disconnected (fd=3)")
           one_client_world) = None.
Proof.
  apply (log_sink_takes_the_registry_lock
           "I (1234) PRUSA: WebSocket client 0 disconnected (fd=3)"
           one_client_world {| state_held := false; clients_held := true |}).
  vm_compute. split; lia.
Defined.

Lemma locks_at_logs_app l e1 e2 :
  locks_at_logs l (e1 ++ e2) =
  locks_at_logs l e1 ++ locks_at_logs (foldl held_after l e1) e2.
Proof.
  revert l. induction e1 as [|e e1 IH]; intros l; [reflexivity |].
  destruct e; cbn [app locks_at_logs foldl held_after]; rewrite IH; reflexivity.
Qed.

Lemma trace_ws_client_remove_from_match fd0 count : forall i0 i c w,
  (i0 <= i < i0 + count)%nat ->
  ws_clients w !! i = Some c ->
  active c = true -> fd c = fd0 ->
  (forall j c', (i0 <= j < i)%nat -> ws_clients w !! j = Some c' ->
                active c' && (fd c' =? fd0) = false) ->
  trace (ws_client_remove_from fd0 i0 count) w =
    [EspLog LOG_I (LogClientDisconnected i fd0)].
Proof.
  induction count as [|n IH]; intros i0 i c w Hi Hc Ha Hfd Hbefore; [lia |].
  cbn [ws_client_remove_from]. run.
  destruct (decide (i0 = i)) as [->|Hne].
  - rewrite Hc, Ha, Hfd, Z.eqb_refl. cbn [andb].
    unfold store_client, xQueueReset, ESP_LOGI. run. reflexivity.
  - destruct (ws_clients w !! i0) as [c0|] eqn:E0.
    + rewrite (Hbefore i0 c0) by (first [lia | exact E0]).
      apply (IH (S i0) i c w); [lia | exact Hc | exact Ha | exact Hfd |].
      intros j c' Hj. apply Hbefore. lia.
    + apply (IH (S i0) i c w); [lia | exact Hc | exact Ha | exact Hfd |].
      intros j c' Hj. apply Hbefore. lia.
Qed.

(** X24. The close of a registered client logs under the registry lock.
    [ws_client_remove] reports the disconnection between taking and
    giving [ws_clients_mutex]: its trace is the take, the log call and
    the give, so that its one log call is made with that mutex held, the
    state in which the sink does not keep the lock order (X23). *)
Theorem close_logs_under_the_registry_lock (fd0 : Z) (i : nat) (c : ws_client_t)
    (w : world) :
  (i < WS_MAX_CLIENTS)%nat ->
  ws_clients w !! i = Some c ->
  active c = true ->
  fd c = fd0 ->
  (forall j c', (j < i)%nat -> ws_clients w !! j = Some c' ->
                active c' && (fd c' =? fd0) = false) ->
  trace (ws_client_remove fd0) w =
    [Take ws_clients_mutex; EspLog LOG_I (LogClientDisconnected i fd0);
     Give ws_clients_mutex] /\
  locks_at_logs unlocked (trace (ws_client_remove fd0) w) =
    [{| state_held := false; clients_held := true |}].
Proof.
  intros Hi Hc Ha Hfd Hbefore.
  assert (Ht : trace (ws_client_remove fd0) w =
               [Take ws_clients_mutex; EspLog LOG_I (LogClientDisconnected i fd0);
                Give ws_clients_mutex]).
  { unfold ws_client_remove, xSemaphoreTake, xSemaphoreGive. run.
    rewrite (trace_ws_client_remove_from_match fd0 WS_MAX_CLIENTS 0 i c w);
      [reflexivity | lia | exact Hc | exact Ha | exact Hfd |].
    intros j c' Hj. apply Hbefore. lia. }
  rewrite Ht. split; reflexivity.
Qed.

Lemma close_logs_under_the_registry_lock_witness :
  locks_at_logs unlocked (trace (ws_client_remove 3) one_client_world) =
    [{| state_held := false; clients_held := true |}].
Proof.
  destruct (close_logs_under_the_registry_lock 3 0
              {| fd := 3; active := true; message_queue := [] |}
              one_client_world) as [_ H].
  - vm_compute. lia.
  - reflexivity.
  - reflexivity.
  - reflexivity.
  - intros j c' Hj. lia.
  - exact H.
Defined.

Lemma locks_at_logs_warnings l ws :
  Forall queue_warning ws ->
  locks_at_logs l ws = map (fun _ => l) ws /\ foldl held_after l ws = l.
Proof.
  induction 1 as [|e ws [i ->] _ [IH1 IH2]]; [now split |].
  cbn [locks_at_logs map foldl held_after]. now rewrite IH1, IH2.
Qed.

Lemma trace_broadcast_to_full msg i c w :
  ws_clients w !! i = Some c ->
  active c = true ->
  (WS_MESSAGE_QUEUE_SIZE <= length (message_queue c))%nat ->
  trace (broadcast_to msg i) w = [EspLog LOG_W (LogQueueFull i)].
Proof.
  intros Hc Ha Hfull. unfold broadcast_to, xQueueSend, ESP_LOGW. run.
  rewrite Hc, Ha.
  destruct (Nat.ltb_spec (length (message_queue c)) WS_MESSAGE_QUEUE_SIZE); [lia |].
  reflexivity.
Qed.

Lemma warning_in_loop msg i c count : forall start w,
  (start <= i < start + count)%nat ->
  ws_clients w !! i = Some c ->
  active c = true ->
  (WS_MESSAGE_QUEUE_SIZE <= length (message_queue c))%nat ->
  In (EspLog LOG_W (LogQueueFull i))
     (trace (for_loop start count (broadcast_to msg)) w).
Proof.
  induction count as [|n IH]; intros start w Hi Hc Ha Hfull; [lia |].
  cbn [for_loop]. run. apply in_or_app.
  destruct (decide (start = i)) as [->|Hne].
  - left. rewrite (trace_broadcast_to_full msg i c w Hc Ha Hfull). now left.
  - right. apply IH; [lia | | exact Ha | exact Hfull].
    rewrite exec_broadcast_to, list_lookup_alter_ne by exact Hne. exact Hc.
Qed.

(** X25. The warning for a full queue is logged under the registry lock.
    Every log call that [ws_broadcast_message] makes is made between
    taking and giving [ws_clients_mutex], and a broadcast that finds the
    queue of an active client full makes such a call for that client:
    the message dropped for a slow client is reported in the state in
    which the sink does not keep the lock order (X23). *)
Theorem full_queue_logs_under_the_registry_lock (msg : ws_message_t) (w : world)
    (i : nat) (c : ws_client_t) :
  (i < WS_MAX_CLIENTS)%nat ->
  ws_clients w !! i = Some c ->
  active c = true ->
  (WS_MESSAGE_QUEUE_SIZE <= length (message_queue c))%nat ->
  In (EspLog LOG_W (LogQueueFull i)) (trace (ws_broadcast_message msg) w) /\
  Forall (fun l => clients_held l = true)
         (locks_at_logs unlocked (trace (ws_broadcast_message msg) w)) /\
  locks_at_logs unlocked (trace (ws_broadcast_message msg) w) <> [].
Proof.
  intros Hi Hc Ha Hfull.
  assert (Hin : In (EspLog LOG_W (LogQueueFull i))
                   (trace (for_loop 0 WS_MAX_CLIENTS (broadcast_to msg)) w)).
  { apply (warning_in_loop msg i c); [lia | exact Hc | exact Ha | exact Hfull]. }
  pose proof (trace_for_loop_warnings msg 0 WS_MAX_CLIENTS w) as Hws.
  unfold ws_broadcast_message, xSemaphoreTake, xSemaphoreGive. run.
  set (ws := trace (for_loop 0 WS_MAX_CLIENTS (broadcast_to msg)) w) in *.
  cbn [app locks_at_logs held_after unlocked state_held clients_held].
  rewrite locks_at_logs_app.
  destruct (locks_at_logs_warnings
              {| state_held := false; clients_held := true |} ws Hws) as [-> ->].
  cbn [locks_at_logs app]. rewrite app_nil_r.
  split; [| split].
  - right. right. apply in_or_app. now left.
  - apply Forall_map. apply Forall_forall. intros; reflexivity.
  - destruct ws; [contradiction | discriminate].
Qed.

Lemma full_queue_logs_under_the_registry_lock_witness :
  let w := exec (for_each (take 50 fifty_one_events) ws_broadcast_message)
                one_client_world in
  In (EspLog LOG_W (LogQueueFull 0))
     (trace (ws_broadcast_message (build_status_message true)) w).
Proof.
  cbv zeta.
  destruct (full_queue_logs_under_the_registry_lock
              (build_status_message true)
              (exec (for_each (take 50 fifty_one_events) ws_broadcast_message)
                    one_client_world)
              0
              {| fd := 3; active := true;
                 message_queue := take 50 fifty_one_events |}) as [H _].
  - vm_compute. lia.
  - reflexivity.
  - reflexivity.
  - vm_compute. lia.
  - exact H.
Defined.

(** * The WebSocket endpoint *)







(** * The remote page *)

Lemma handler_allocated L d size bytes n :
  http_event_handler (data_event L d) {| buffer := Some (size, bytes); len := n |} =
  append_data size bytes n d.
Proof. reflexivity. Qed.

Lemma handler_first L d :
  http_event_handler (data_event L d) {| buffer := None; len := 0 |} =
  if (L <=? 0) || (500000 <? L)
  then Handled ESP_FAIL {| buffer := None; len := 0 |}
  else append_data (Z.to_nat L + 1) [] 0 d.
Proof. reflexivity. Qed.

Lemma feed_allocated L size chunks : forall bytes,
  (length bytes < size)%nat ->
  feed (map (data_event L) chunks)
       {| buffer := Some (size, bytes); len := length bytes |} =
  if Nat.ltb (length bytes + length (concat chunks)) size
  then Some {| buffer := Some (size, bytes ++ concat chunks);
               len := (length bytes + length (concat chunks))%nat |}
  else None.
Proof.
  induction chunks as [|d chunks IH]; intros bytes Hlt.
  - cbn [map feed concat length]. rewrite app_nil_r, Nat.add_0_r.
    destruct (Nat.ltb_spec (length bytes) size); [reflexivity | lia].
  - cbn [map feed concat]. rewrite handler_allocated. unfold append_data.
    rewrite length_app.
    destruct (Nat.ltb_spec (length bytes + length d) size) as [Hfit|Hout].
    + rewrite take_ge by lia.
      rewrite <- (length_app bytes d).
      rewrite (IH (bytes ++ d)) by (rewrite length_app; lia).
      rewrite length_app, <- app_assoc, Nat.add_assoc. reflexivity.
    + destruct (Nat.ltb_spec (length bytes + (length d + length (concat chunks))) size);
        [lia | reflexivity].
Qed.

Lemma feed_refused L chunks :
  L <= 0 \/ 500000 < L ->
  feed (map (data_event L) chunks) {| buffer := None; len := 0 |} =
  Some {| buffer := None; len := 0 |}.
Proof.
  intros HL. induction chunks as [|d chunks IH]; [reflexivity |].
  cbn [map feed]. rewrite handler_first.
  assert ((L <=? 0) || (500000 <? L) = true) as ->; [| exact IH].
  apply orb_true_iff. destruct HL; [left; now apply Z.leb_le | right; now apply Z.ltb_lt].
Qed.

Lemma feed_announced L chunks :
  0 < L <= 500000 ->
  chunks <> [] ->
  feed (map (data_event L) chunks) {| buffer := None; len := 0 |} =
  if Nat.leb (length (concat chunks)) (Z.to_nat L)
  then Some {| buffer := Some ((Z.to_nat L + 1)%nat, concat chunks);
               len := length (concat chunks) |}
  else None.
Proof.
  intros HL Hne. destruct chunks as [|d chunks]; [contradiction |].
  cbn [map feed concat]. rewrite handler_first.
  destruct (Z.leb_spec L 0); [lia |]. destruct (Z.ltb_spec 500000 L); [lia |].
  cbn [orb]. unfold append_data. cbn [take app Nat.add]. rewrite length_app.
  destruct (Nat.ltb_spec (length d) (Z.to_nat L + 1)) as [Hfit|Hout].
  - rewrite (feed_allocated L (Z.to_nat L + 1) chunks d Hfit).
    destruct (Nat.ltb_spec (length d + length (concat chunks)) (Z.to_nat L + 1));
      destruct (Nat.leb_spec (length d + length (concat chunks)) (Z.to_nat L));
      try lia; reflexivity.
  - destruct (Nat.leb_spec (length d + length (concat chunks)) (Z.to_nat L));
      [lia | reflexivity].
Qed.

(** X27. A download, event by event. For a response that is not chunked
    and announces between 1 and 500000 bytes, the data events are stored
    one behind the other in a block of one byte more: when the data are
    no longer than announced, the buffer holds them all in order and
    [len] is their length; when they are longer, the handler stores
    outside the block, for it compares nothing with the size of the
    block. A response that announces no length, or more than 500000
    bytes, is refused at every data event, and the data of a chunked
    response are passed over: in both cases the buffer stays NULL. *)
Theorem download_is_stored_in_order (L : Z) (chunks : list (list ascii)) :
  (0 < L <= 500000 -> chunks <> [] ->
     feed (map (data_event L) chunks) {| buffer := None; len := 0 |} =
     if Nat.leb (length (concat chunks)) (Z.to_nat L)
     then Some {| buffer := Some ((Z.to_nat L + 1)%nat, concat chunks);
                  len := length (concat chunks) |}
     else None) /\
  (L <= 0 \/ 500000 < L ->
     feed (map (data_event L) chunks) {| buffer := None; len := 0 |} =
     Some {| buffer := None; len := 0 |}) /\
  (forall evt output,
     event_id evt = HTTP_EVENT_ON_DATA -> is_chunked_response evt = true ->
     http_event_handler evt output = Handled ESP_OK output).
Proof.
  split; [apply feed_announced | split; [apply feed_refused |]].
  intros evt output Hid Hch. unfold http_event_handler. now rewrite Hid, Hch.
Qed.

Lemma download_is_stored_in_order_witness :
  feed (map (data_event 11)
            [list_ascii_of_string "<html>"; list_ascii_of_string "</htm"])
       {| buffer := None; len := 0 |} =
  Some {| buffer := Some (12%nat, list_ascii_of_string "<html></htm"); len := 11 |} /\
  feed (map (data_event 0) [list_ascii_of_string "<html>"])
       {| buffer := None; len := 0 |} =
  Some {| buffer := None; len := 0 |}.
Proof.
  destruct (download_is_stored_in_order 11
              [list_ascii_of_string "<html>"; list_ascii_of_string "</htm"])
    as (H1 & _ & _).
  destruct (download_is_stored_in_order 0 [list_ascii_of_string "<html>"])
    as (_ & H2 & _).
  split; [apply H1; [lia | discriminate] | apply H2; left; lia].
Defined.

(** X28. Which page is served. After a refresh that succeeded, with
    status 200 and a buffer that is not empty, the root handler serves
    the downloaded bytes; after a refresh that failed in any way it
    serves what it served before, the embedded page when nothing was
    ever cached: a failed refresh never takes the page away. *)
Theorem failed_refresh_keeps_the_page (webpage : list ascii)
    (client : option (esp_err_t * Z * download_buffer_t)) (h : html_cache) :
  (forall size bytes n,
     client = Some (ESP_OK, 200, {| buffer := Some (size, bytes); len := n |}) ->
     (0 < n)%nat ->
     root_get_handler webpage (download_html_from_github client h) = take n bytes) /\
  (nothing_to_cache client ->
     root_get_handler webpage (download_html_from_github client h) =
     root_get_handler webpage h).
Proof.
  split.
  - intros size bytes n -> Hn. unfold download_html_from_github, root_get_handler.
    cbn [buffer len]. destruct n as [|n]; [lia | reflexivity].
  - unfold nothing_to_cache, download_html_from_github.
    destruct client as [[[err status_code] download]|]; [| reflexivity].
    intros H. destruct err; try reflexivity.
    destruct (buffer download) as [[size bytes]|] eqn:Hb; [| reflexivity].
    destruct H as [H | [H | [H | H]]]; [contradiction | | discriminate |].
    + destruct (Z.eqb_spec status_code 200); [contradiction | reflexivity].
    + rewrite H. now rewrite andb_false_r.
Qed.

Lemma failed_refresh_keeps_the_page_witness :
  let cache := {| cached_html := Some (list_ascii_of_string "<html>old</html>");
                  cached_html_size := 16;
                  last_download_error := Downloaded 16 |} in
  root_get_handler (list_ascii_of_string "<html>embedded</html>")
    (download_html_from_github
       (Some (ESP_OK, 404, {| buffer := None; len := 0 |})) cache) =
  list_ascii_of_string "<html>old</html>" /\
  root_get_handler (list_ascii_of_string "<html>embedded</html>")
    (download_html_from_github
       (Some (ESP_OK, 200,
              {| buffer := Some (17%nat, list_ascii_of_string "<html>new</html>");
                 len := 16 |})) cache) =
  list_ascii_of_string "<html>new</html>".
Proof.
  cbv zeta. split.
  - rewrite (proj2 (failed_refresh_keeps_the_page
                      (list_ascii_of_string "<html>embedded</html>")
                      (Some (ESP_OK, 404, {| buffer := None; len := 0 |})) _)).
    + reflexivity.
    + right. left. discriminate.
  - apply (proj1 (failed_refresh_keeps_the_page
                    (list_ascii_of_string "<html>embedded</html>")
                    (Some (ESP_OK, 200,
                       {| buffer := Some (17%nat, list_ascii_of_string "<html>new</html>");
                          len := 16 |})) _) 17%nat
                 (list_ascii_of_string "<html>new</html>") 16%nat eq_refl).
    lia.
Defined.

(** * From the printer to the wire *)


Section Delivers.









End Delivers.





